(** * Sakura Sorter: the file-arrival and safe-move engine of [sorter.py]

    A shallow embedding of [get_unique_filename] and of the classes
    [AutoSortHandler] and [AutoSorterApp] of [sorter.py], the properties
    of them that the specification states, and further properties that
    the code shows.

    Modelling conventions.
    - A Python [str] is a [string]; its characters stand for the code
      points below 256.  [os.path] is [posixpath]: the separator is [/].
    - The counter of [get_unique_filename] is a [nat]; [str(counter)] is
      stdpp's [pretty], the decimal numeral.
    - The file system is a finite map from paths to nodes; a path is the
      string that names it.
    - A [while] loop is a function with fuel; that the fuel given is
      enough is proved, not assumed.  A call that does not return, as
      an [open] that waits for ever, is a result of its own.
    - The timeout and the interval of the stability check are Python
      [int]s, as in the one call that the code makes of it; the
      arithmetic of [float]s is not modelled.
    - What other processes do shows in the model as inputs: what each
      poll of the stability check observes, what happens to the file
      system during the one-second delay before a move, and the fault
      that decides how the move ends.
    - The application object is a record of the attributes and widget
      contents that its methods read and write; a callback is a function
      from that state to the state it leaves and the exception it
      raises, if any.  What the user and the platform do is an argument
      of the callback. *)

From Stdlib Require Import ZArith Ascii String.
From stdpp Require Import gmap strings pretty list fin_maps.

Open Scope string_scope.

(** * Strings *)

Module Str.

(** [c in s] *)
Fixpoint occurs (c : ascii) (s : string) : bool :=
  match s with
  | EmptyString => false
  | String a s' => if Ascii.eqb a c then true else occurs c s'
  end.

(** [s[:n]] and [s[n:]] for [0 <= n] *)
Fixpoint take (n : nat) (s : string) : string :=
  match n, s with
  | S n', String a s' => String a (take n' s')
  | _, _ => EmptyString
  end.

Fixpoint drop (n : nat) (s : string) : string :=
  match n, s with
  | S n', String _ s' => drop n' s'
  | _, _ => s
  end.

(** [s.rfind(c)]: the highest index of [c] in [s], [-1] when absent.
    [i] is the index of the first character of [s]. *)
Fixpoint rfind_from (i : Z) (c : ascii) (s : string) : Z :=
  match s with
  | EmptyString => (-1)%Z
  | String a s' =>
      let r := rfind_from (i + 1) c s' in
      if (r =? -1)%Z then (if Ascii.eqb a c then i else (-1)%Z) else r
  end.

Definition rfind (c : ascii) (s : string) : Z := rfind_from 0 c s.

(** [str.lower] on one code point below 256: the letters [A]-[Z] and
    the Latin-1 capitals U+00C0-U+00DE (the multiplication sign U+00D7
    apart) move up by 32; everything else stays. *)
Definition lower_char (c : ascii) : ascii :=
  let n := N_of_ascii c in
  if ((65 <=? n) && (n <=? 90) ||
      (192 <=? n) && (n <=? 222) && negb (n =? 215))%N
  then ascii_of_N (n + 32) else c.

Fixpoint lower (s : string) : string :=
  match s with
  | EmptyString => EmptyString
  | String a s' => String (lower_char a) (lower s')
  end.

(** [s.startswith(c)] *)
Definition startswith (c : ascii) (s : string) : bool :=
  match s with
  | EmptyString => false
  | String a _ => Ascii.eqb a c
  end.

(** Every character of [s] is [c]. *)
Fixpoint only (c : ascii) (s : string) : bool :=
  match s with
  | EmptyString => true
  | String a s' => Ascii.eqb a c && only c s'
  end.

(** [s.endswith(c)] *)
Fixpoint endswith (c : ascii) (s : string) : bool :=
  match s with
  | EmptyString => false
  | String a s' =>
      match s' with
      | EmptyString => Ascii.eqb a c
      | String _ _ => endswith c s'
      end
  end.

(** [s.rstrip(c)] *)
Fixpoint rstrip (c : ascii) (s : string) : string :=
  match s with
  | EmptyString => EmptyString
  | String a s' =>
      match rstrip c s' with
      | EmptyString => if Ascii.eqb a c then EmptyString else String a EmptyString
      | t => String a t
      end
  end.

(** The line feed, the one character [.] refuses. *)
Definition LF : ascii := "010"%char.

End Str.

(** * The fragment of [re] that [TAG_PATTERN] uses

    A pattern is a sequence of items; an item is one atom or a lazy
    repetition [a*?] of an atom; an atom is a literal character or [.],
    which without [re.DOTALL] matches every character but the line
    feed.  [re.match] anchors the match at the start of the string, so
    the leading [^] of the pattern adds nothing, and the one group of
    [TAG_PATTERN] spans the whole pattern: group 1 is the matched
    prefix. *)

Module Re.

Inductive atom : Type :=
| Lit (c : ascii)
| Dot.

Inductive item : Type :=
| One (a : atom)
| LazyStar (a : atom).

Definition regex : Type := list item.

Definition accepts (a : atom) (c : ascii) : bool :=
  match a with
  | Lit d => Ascii.eqb c d
  | Dot => negb (Ascii.eqb c Str.LF)
  end.

(** [a*?] followed by the rest [k] of the pattern: the backtracking
    matcher tries the rest first and takes one more [a] only when the
    rest fails. *)
Fixpoint lazy_star (a : atom) (k : string -> option string) (s : string)
  : option string :=
  match k s with
  | Some m => Some m
  | None =>
      match s with
      | EmptyString => None
      | String c s' =>
          if accepts a c then String c <$> lazy_star a k s' else None
      end
  end.

(** The prefix of [s] that the pattern matches, if any. *)
Fixpoint rmatch (r : regex) : string -> option string :=
  match r with
  | [] => fun _ => Some EmptyString
  | One a :: r' => fun s =>
      match s with
      | EmptyString => None
      | String c s' => if accepts a c then String c <$> rmatch r' s' else None
      end
  | LazyStar a :: r' => lazy_star a (rmatch r')
  end.

End Re.

(** [TAG_PATTERN = r"^(\[.*?\])"] *)
Definition TAG_PATTERN : Re.regex :=
  [Re.One (Re.Lit "["); Re.LazyStar Re.Dot; Re.One (Re.Lit "]")].

(** [AutoSortHandler.extract_tag]:
    [match.group(1).lower() if match else None] *)
Definition extract_tag (file_name : string) : option string :=
  match Re.rmatch TAG_PATTERN file_name with
  | Some group1 => Some (Str.lower group1)
  | None => None
  end.

(** * [os.path] (posixpath) *)

Module OsPath.

(** [posixpath.join(a, b)] *)
Definition join (a b : string) : string :=
  if Str.startswith "/" b then b
  else
    match a with
    | EmptyString => b
    | _ => if Str.endswith "/" a then a +:+ b else a +:+ "/" +:+ b
    end.

(** [posixpath.basename(p)]: [p[p.rfind('/') + 1:]] *)
Definition basename (p : string) : string :=
  Str.drop (Z.to_nat (Str.rfind "/" p + 1)) p.

(** The loop of [genericpath._splitext] that skips the leading dots of
    the last component: [filenameIndex] runs up to [dotIndex], and the
    first character met that is not a dot makes the split at
    [dotIndex] an extension.  [n] bounds the iterations left. *)
Fixpoint splitext_scan (n : nat) (p : string) (filenameIndex dotIndex : Z)
  : string * string :=
  match n with
  | O => (p, EmptyString)
  | S n' =>
      if (filenameIndex <? dotIndex)%Z then
        let split :=
          (Str.take (Z.to_nat dotIndex) p, Str.drop (Z.to_nat dotIndex) p) in
        match String.get (Z.to_nat filenameIndex) p with
        | Some c =>
            if Ascii.eqb c "."
            then splitext_scan n' p (filenameIndex + 1) dotIndex
            else split
        | None => split
        end
      else (p, EmptyString)
  end.

(** [posixpath.splitext(p)] *)
Definition splitext (p : string) : string * string :=
  let sepIndex := Str.rfind "/" p in
  let dotIndex := Str.rfind "." p in
  if (sepIndex <? dotIndex)%Z
  then splitext_scan (String.length p) p (sepIndex + 1) dotIndex
  else (p, EmptyString).

End OsPath.

(** * The file system *)

Inductive node : Type :=
| File (content : string)
| Dir.

Abbreviation filesystem := (gmap string node).

(** [os.path.exists(p)] *)
Definition path_exists (fs : filesystem) (p : string) : bool :=
  match fs !! p with
  | Some _ => true
  | None => false
  end.

(** [os.path.isdir(p)] *)
Definition path_isdir (fs : filesystem) (p : string) : bool :=
  match fs !! p with
  | Some Dir => true
  | _ => false
  end.

(** * [get_unique_filename] *)

(** [f"{base_name}_{counter}{ext}"] *)
Definition numbered (base_name : string) (counter : nat) (ext : string) : string :=
  base_name +:+ "_" +:+ pretty counter +:+ ext.

(** The [while] loop of [get_unique_filename], on its two variables
    [new_file_path] and [counter]; [None] when [fuel] iterations do not
    reach a free path. *)
Fixpoint unique_loop (fuel : nat) (fs : filesystem)
    (destination base_name ext new_file_path : string) (counter : nat)
  : option string :=
  match fuel with
  | O => None
  | S fuel' =>
      if path_exists fs new_file_path then
        let new_file_name := numbered base_name counter ext in
        let new_file_path := OsPath.join destination new_file_name in
        unique_loop fuel' fs destination base_name ext new_file_path (counter + 1)
      else Some new_file_path
  end.

Definition get_unique_filename_fuel (fuel : nat) (fs : filesystem)
    (destination file_name : string) : option string :=
  let '(base_name, ext) := OsPath.splitext file_name in
  let new_file_path := OsPath.join destination file_name in
  unique_loop fuel fs destination base_name ext new_file_path 1.

(** The loop looks at no more than [size fs + 2] paths (see
    [get_unique_filename_total]), so this much fuel runs it to its
    end. *)
Definition get_unique_filename (fs : filesystem) (destination file_name : string)
  : option string :=
  get_unique_filename_fuel (size fs + 2) fs destination file_name.

(** * Results of effectful code *)

Inductive exn : Type :=
| GetsizeOSError          (* [os.path.getsize] raised *)
| OpenOSError             (* [open] raised, and not a [PermissionError] *)
| FileNotFoundError       (* the source of a move is gone *)
| DestinationExists       (* [shutil.Error]: destination path already exists *)
| FileExistsError         (* a directory cannot replace a regular file *)
| SameFileError           (* a copy of a file onto itself *)
| MovePermissionError     (* the copy or the unlinking was refused *)
| NoSpaceError.           (* the copy was cut short, as when the disk fills up *)

Inductive result (A : Type) : Type :=
| Return (a : A)
| Raise (e : exn)
| Diverge                 (* the fuel of a loop ran out *)
| Blocked.                (* a call that does not return: it waits for ever *)

Arguments Return {A} a.
Arguments Raise {A} e.
Arguments Diverge {A}.
Arguments Blocked {A}.

(** * [AutoSortHandler.wait_for_download] *)

(** What [open(file_path, "rb")] does: it returns, it raises
    [PermissionError], it raises another [OSError], or it does not
    return, as for a FIFO that no process has opened for writing. *)
Inductive open_outcome : Type :=
| Opened
| PermissionError
| OpenFails
| OpenBlocks.

(** What one iteration of the loop observes at [file_path]: the answer of
    [os.path.exists], of [os.path.getsize] ([None]: it raises [OSError],
    as when the file goes away after [exists] has seen it) and of
    [open]. *)
Record poll : Type := {
  p_exists : bool;
  p_getsize : option N;
  p_open : open_outcome
}.

(** The result of the stability check, with the number of iterations the
    loop began, the final [elapsed_time] and the lines it printed. *)
Record waited : Type := {
  verdict : result bool;
  polls : nat;
  elapsed : Z;
  printed : list string
}.

Definition timeout_line (file_path : string) : string :=
  "Timeout: File " +:+ file_path +:+ " may not have fully downloaded.".

(** The [while] loop on its variables [previous_size] and
    [elapsed_time]; [i] counts the iterations begun so far, and [w i] is
    what iteration [i] observes.  [time.sleep] has no effect of its
    own.  [timeout] and [interval] are Python [int]s, as the defaults
    are with which [on_created] makes the call; the sums of [float]s,
    which round, are not modelled. *)
Fixpoint wait_loop (fuel : nat) (w : nat -> poll) (file_path : string)
    (timeout interval : Z) (previous_size elapsed_time : Z) (i : nat) : waited :=
  match fuel with
  | O => {| verdict := Diverge; polls := i; elapsed := elapsed_time; printed := [] |}
  | S fuel' =>
      if (elapsed_time <? timeout)%Z then
        if negb (p_exists (w i)) then
          wait_loop fuel' w file_path timeout interval
            previous_size (elapsed_time + interval) (S i)
        else
          match p_getsize (w i) with
          | None =>
              {| verdict := Raise GetsizeOSError; polls := S i;
                 elapsed := elapsed_time; printed := [] |}
          | Some size =>
              let current_size := Z.of_N size in
              let again :=
                wait_loop fuel' w file_path timeout interval
                  current_size (elapsed_time + interval) (S i) in
              if (current_size =? previous_size)%Z then
                match p_open (w i) with
                | Opened =>
                    {| verdict := Return true; polls := S i;
                       elapsed := elapsed_time; printed := [] |}
                | PermissionError => again
                | OpenFails =>
                    {| verdict := Raise OpenOSError; polls := S i;
                       elapsed := elapsed_time; printed := [] |}
                | OpenBlocks =>
                    {| verdict := Blocked; polls := S i;
                       elapsed := elapsed_time; printed := [] |}
                end
              else again
          end
      else
        {| verdict := Return false; polls := i; elapsed := elapsed_time;
           printed := [timeout_line file_path] |}
  end.

Definition wait_for_download_fuel (fuel : nat) (w : nat -> poll)
    (file_path : string) (timeout interval : Z) : waited :=
  wait_loop fuel w file_path timeout interval (-1) 0 0.

(** The most iterations a positive [interval] allows, for [int]
    arguments: [timeout / interval], rounded up. *)
Definition max_polls (timeout interval : Z) : nat :=
  Z.to_nat ((timeout + interval - 1) / interval).

(** The call as [on_created] makes it, [timeout=30, interval=1]; the
    fuel is one more than [max_polls 30 1]. *)
Definition wait_for_download (w : nat -> poll) (file_path : string) : waited :=
  wait_for_download_fuel 31 w file_path 30 1.

(** * [shutil.move]

    The library function, after [Lib/shutil.py], on the flat file
    system:
    - when [dst] is a directory and is [src] itself, [os.rename(src, dst)]
      and nothing changes;
    - when [dst] is a directory, the move goes to [dst/basename(src)],
      and [shutil.Error] is raised if that exists;
    - [os.rename(src, real_dst)] replaces a regular file at [real_dst];
    - when [os.rename] raises [OSError], the source is copied to
      [real_dst] and then unlinked.
    [fault] says what the platform does to the rename, to the copy and
    to the unlinking.  A directory is one node of the map: moving it
    moves that node. *)

Inductive move_fault : Type :=
| NoFault                       (* [os.rename] succeeds *)
| CrossVolume                   (* [os.rename] raises; copy, then unlink *)
| CopyFails (written : nat)     (* the same; the copy stops after [written] characters *)
| AccessDenied                  (* [os.rename] and the copy are both refused *)
| UnlinkRefused.                (* as above; the copy is made, [os.unlink] is refused *)

(** What an interrupted copy leaves at the destination. *)
Definition partial (written : nat) (n : node) : node :=
  match n with
  | File content => File (Str.take written content)
  | Dir => Dir
  end.

Definition shutil_move (fault : move_fault) (fs : filesystem) (src dst : string)
  : filesystem * result unit :=
  if path_isdir fs dst && String.eqb src dst then (fs, Return tt)
  else
    let real_dst :=
      if path_isdir fs dst
      then OsPath.join dst (OsPath.basename (Str.rstrip "/" src))
      else dst in
    if path_isdir fs dst && path_exists fs real_dst
    then (fs, Raise DestinationExists)
    else
      match fs !! src with
      | None => (fs, Raise FileNotFoundError)
      | Some n =>
          match n, fs !! real_dst with
          | Dir, Some (File _) => (fs, Raise FileExistsError)
          | _, _ =>
              match fault with
              | NoFault => (<[real_dst := n]> (delete src fs), Return tt)
              | CrossVolume =>
                  if String.eqb src real_dst then (fs, Raise SameFileError)
                  else (<[real_dst := n]> (delete src fs), Return tt)
              | CopyFails written =>
                  if String.eqb src real_dst then (fs, Raise SameFileError)
                  else (<[real_dst := partial written n]> fs, Raise NoSpaceError)
              | AccessDenied => (fs, Raise MovePermissionError)
              | UnlinkRefused =>
                  if String.eqb src real_dst then (fs, Raise SameFileError)
                  else (<[real_dst := n]> fs, Raise MovePermissionError)
              end
          end
      end.

(** * [AutoSortHandler.move_file]

    [fs] is the file system when the method is entered; [during_delay]
    is what other processes do to it during [time.sleep(1)]. *)
Definition move_file (fault : move_fault) (during_delay : filesystem -> filesystem)
    (fs : filesystem) (file_path destination_folder : string)
  : filesystem * result unit :=
  if negb (path_exists fs destination_folder) then (fs, Return tt)
  else
    let file_name := OsPath.basename file_path in
    match get_unique_filename fs destination_folder file_name with
    | None => (fs, Diverge)
    | Some new_path => shutil_move fault (during_delay fs) file_path new_path
    end.

(** * [AutoSortHandler.on_created] *)

Record event : Type := {
  is_directory : bool;
  src_path : string
}.

(** The file system when the handler returns, how it returns, and what
    it printed. *)
Record handled : Type := {
  fs_after : filesystem;
  outcome : result unit;
  output : list string
}.

(** [fs] is the file system when the stability check ends. *)
Definition on_created (sorting_rules : gmap string string) (w : nat -> poll)
    (fault : move_fault) (during_delay : filesystem -> filesystem)
    (fs : filesystem) (ev : event) : handled :=
  if is_directory ev then {| fs_after := fs; outcome := Return tt; output := [] |}
  else
    let file_path := src_path ev in
    let file_name := OsPath.basename file_path in
    let wd := wait_for_download w file_path in
    let nothing r := {| fs_after := fs; outcome := r; output := printed wd |} in
    match verdict wd with
    | Return true =>
        match extract_tag file_name with
        | Some tag =>
            if negb (String.eqb tag EmptyString) then
              match sorting_rules !! tag with
              | Some destination_folder =>
                  let '(fs', r) :=
                    move_file fault during_delay fs file_path destination_folder in
                  {| fs_after := fs'; outcome := r; output := printed wd |}
              | None => nothing (Return tt)
              end
            else nothing (Return tt)
        | None => nothing (Return tt)
        end
    | Return false => nothing (Return tt)
    | Raise e => nothing (Raise e)
    | Diverge => nothing Diverge
    | Blocked => nothing Blocked
    end.

(** * [str.strip] *)

Module Text.

(** [str.isspace] on one code point below 256: the controls U+0009 to
    U+000D and U+001C to U+001F, the space, U+0085 and U+00A0. *)
Definition isspace (c : ascii) : bool :=
  let n := N_of_ascii c in
  ((9 <=? n) && (n <=? 13) || (28 <=? n) && (n <=? 32)
   || (n =? 133) || (n =? 160))%N.

(** [s.lstrip()] *)
Fixpoint lstrip (s : string) : string :=
  match s with
  | EmptyString => EmptyString
  | String a s' => if isspace a then lstrip s' else s
  end.

(** [s.rstrip()] *)
Fixpoint rstrip (s : string) : string :=
  match s with
  | EmptyString => EmptyString
  | String a s' =>
      match rstrip s' with
      | EmptyString => if isspace a then EmptyString else String a EmptyString
      | t => String a t
      end
  end.

(** [s.strip()] *)
Definition strip (s : string) : string := rstrip (lstrip s).

(** The truth value of a [str]: it is not empty. *)
Definition truthy (s : string) : bool := negb (String.eqb s EmptyString).

End Text.

(** * The [dict] of rules

    A Python [dict] with [str] keys and values, in insertion order: the
    keys of the list are pairwise different. *)

Module Dict.

Definition dict : Type := list (string * string).

(** [d[k]] and [k in d] *)
Fixpoint get (d : dict) (k : string) : option string :=
  match d with
  | [] => None
  | (k', v) :: d' => if String.eqb k' k then Some v else get d' k
  end.

(** [d[k] = v]: a key that is present keeps its place, a new key goes
    to the end. *)
Fixpoint set (d : dict) (k v : string) : dict :=
  match d with
  | [] => [(k, v)]
  | (k', v') :: d' =>
      if String.eqb k' k then (k', v) :: d' else (k', v') :: set d' k v
  end.

(** [del d[k]]; [None] is the [KeyError] of an absent key. *)
Fixpoint del (d : dict) (k : string) : option dict :=
  match d with
  | [] => None
  | (k', v') :: d' =>
      if String.eqb k' k then Some d'
      else match del d' k with
           | Some d'' => Some ((k', v') :: d'')
           | None => None
           end
  end.

(** The [dict] that [json.load] builds from the members of a JSON
    object, in the order of the text: a repeated name keeps its first
    place and its last value. *)
Definition load (members : list (string * string)) : dict :=
  foldl (fun d m => set d m.1 m.2) [] members.

End Dict.

(** * [AutoSorterApp]

    The state of the application object and of the widgets its methods
    read and write.  The one [dict] of rules is also the [sorting_rules]
    of every [AutoSortHandler] that [start_monitoring] creates: the
    handler is given the object, not a copy.  What the user and the
    platform do comes in as arguments: the folder a dialog returns (empty
    when cancelled), the tag the table reports as selected, how the
    writing of the settings file ends and whether the observer starts.

    The settings file on which the application starts, when there is
    one, is a JSON object whose [sorting_rules] is an object of strings
    and whose [watch_folder] is a string; the table has at most one row
    selected.  The title, the
    geometry, the styles and the icon ([apply_styles], [set_icon]) touch
    nothing that the other methods read and are left out. *)

Module AutoSorterApp.

Inductive raised : Type :=
| KeyError (key : string)   (* [del self.sorting_rules[tag]] *)
| OSError                   (* [save_settings], [observer.start()] *)
| RuntimeError.             (* [observer.join()] before the thread was started *)

(** [sorting_rules.json]: a JSON object; each of the two members may be
    missing.  [sorting_rules] is an object of strings, given by its
    members in the order of the text. *)
Record settings : Type := {
  sorting_rules_member : option (list (string * string));
  watch_folder_member : option string
}.

(** What is at [CONFIG_FILE]: no file or a JSON document as above, or
    what a write that failed part of the way has left, which is no
    JSON document: [json.load] raises on it. *)
Inductive disk_file : Type :=
| Loadable (file : option settings)
| Torn.

(** How [save_settings] ends.  [open(CONFIG_FILE, "w")] empties the
    file before anything is written to it. *)
Inductive write_outcome : Type :=
| Written        (* the file is opened and written in full *)
| OpenRefused    (* [open] raises: the file is as it was *)
| WriteFails.    (* the file is opened; a write or the closing raises *)

(** An [Observer] with the handler scheduled on [obs_path]
    ([recursive=False]); [obs_started] says whether its thread runs. *)
Record Observer : Type := {
  obs_path : string;
  obs_started : bool
}.

Record app : Type := {
  sorting_rules : Dict.dict;
  watch_folder : string;                  (* [tk.StringVar] *)
  observer : option Observer;
  tag_entry : string;
  path_entry : string;
  tree : list (string * string);          (* the rows of the table *)
  start_button : string;                  (* its text *)
  warnings : list (string * string);      (* the warning windows shown *)
  config_file : disk_file;                (* [CONFIG_FILE] on disk *)
  destroyed : bool                        (* [root.destroy()] was called *)
}.

Definition with_sorting_rules (d : Dict.dict) (a : app) : app :=
  {| sorting_rules := d; watch_folder := watch_folder a;
     observer := observer a; tag_entry := tag_entry a;
     path_entry := path_entry a; tree := tree a;
     start_button := start_button a; warnings := warnings a;
     config_file := config_file a; destroyed := destroyed a |}.

Definition with_watch_folder (s : string) (a : app) : app :=
  {| sorting_rules := sorting_rules a; watch_folder := s;
     observer := observer a; tag_entry := tag_entry a;
     path_entry := path_entry a; tree := tree a;
     start_button := start_button a; warnings := warnings a;
     config_file := config_file a; destroyed := destroyed a |}.

Definition with_observer (o : option Observer) (a : app) : app :=
  {| sorting_rules := sorting_rules a; watch_folder := watch_folder a;
     observer := o; tag_entry := tag_entry a;
     path_entry := path_entry a; tree := tree a;
     start_button := start_button a; warnings := warnings a;
     config_file := config_file a; destroyed := destroyed a |}.

Definition with_tag_entry (s : string) (a : app) : app :=
  {| sorting_rules := sorting_rules a; watch_folder := watch_folder a;
     observer := observer a; tag_entry := s;
     path_entry := path_entry a; tree := tree a;
     start_button := start_button a; warnings := warnings a;
     config_file := config_file a; destroyed := destroyed a |}.

Definition with_path_entry (s : string) (a : app) : app :=
  {| sorting_rules := sorting_rules a; watch_folder := watch_folder a;
     observer := observer a; tag_entry := tag_entry a;
     path_entry := s; tree := tree a;
     start_button := start_button a; warnings := warnings a;
     config_file := config_file a; destroyed := destroyed a |}.

Definition with_tree (rows : list (string * string)) (a : app) : app :=
  {| sorting_rules := sorting_rules a; watch_folder := watch_folder a;
     observer := observer a; tag_entry := tag_entry a;
     path_entry := path_entry a; tree := rows;
     start_button := start_button a; warnings := warnings a;
     config_file := config_file a; destroyed := destroyed a |}.

Definition with_start_button (s : string) (a : app) : app :=
  {| sorting_rules := sorting_rules a; watch_folder := watch_folder a;
     observer := observer a; tag_entry := tag_entry a;
     path_entry := path_entry a; tree := tree a;
     start_button := s; warnings := warnings a;
     config_file := config_file a; destroyed := destroyed a |}.

Definition with_warnings (l : list (string * string)) (a : app) : app :=
  {| sorting_rules := sorting_rules a; watch_folder := watch_folder a;
     observer := observer a; tag_entry := tag_entry a;
     path_entry := path_entry a; tree := tree a;
     start_button := start_button a; warnings := l;
     config_file := config_file a; destroyed := destroyed a |}.

Definition with_config_file (c : disk_file) (a : app) : app :=
  {| sorting_rules := sorting_rules a; watch_folder := watch_folder a;
     observer := observer a; tag_entry := tag_entry a;
     path_entry := path_entry a; tree := tree a;
     start_button := start_button a; warnings := warnings a;
     config_file := c; destroyed := destroyed a |}.

Definition with_destroyed (b : bool) (a : app) : app :=
  {| sorting_rules := sorting_rules a; watch_folder := watch_folder a;
     observer := observer a; tag_entry := tag_entry a;
     path_entry := path_entry a; tree := tree a;
     start_button := start_button a; warnings := warnings a;
     config_file := config_file a; destroyed := b |}.

(** [load_settings]: the content of the file, or the default when there
    is no file. *)
Definition load_settings (file : option settings) : settings :=
  match file with
  | Some s => s
  | None => {| sorting_rules_member := Some []; watch_folder_member := Some "" |}
  end.

(** [refresh_table]: the rows are cleared and written again from
    [sorting_rules.items()]. *)
Definition refresh_table (a : app) : app := with_tree (sorting_rules a) a.

(** [__init__], with [create_widgets]: the rules and the watch folder
    come from the settings, [.get] giving [{}] and [""] for a missing
    member; the table is filled, the entries hold their place holders
    and the button offers to start. *)
Definition init (file : option settings) : app :=
  let s := load_settings file in
  refresh_table
    {| sorting_rules :=
         match sorting_rules_member s with
         | Some members => Dict.load members
         | None => []
         end;
       watch_folder := default "" (watch_folder_member s);
       observer := None;
       tag_entry := "Tag"; path_entry := "Path";
       tree := [];
       start_button := "Start Monitoring";
       warnings := [];
       config_file := Loadable file;
       destroyed := false |}.

(** [save_settings]; [writing] is how the [with open(CONFIG_FILE, "w")]
    block ends. *)
Definition save_settings (writing : write_outcome) (a : app)
  : app * option raised :=
  match writing with
  | Written =>
      (with_config_file
         (Loadable
            (Some {| sorting_rules_member := Some (sorting_rules a);
                     watch_folder_member := Some (watch_folder a) |})) a,
       None)
  | OpenRefused => (a, Some OSError)
  | WriteFails => (with_config_file Torn a, Some OSError)
  end.

(** [choose_watch_folder]; [folder] is what [askdirectory] returns. *)
Definition choose_watch_folder (folder : string) (writing : write_outcome)
    (a : app) : app * option raised :=
  if Text.truthy folder then save_settings writing (with_watch_folder folder a)
  else (a, None).

(** [choose_folder] *)
Definition choose_folder (folder : string) (a : app) : app :=
  if Text.truthy folder then with_path_entry folder a else a.

(** [add_tag] *)
Definition add_tag (writing : write_outcome) (a : app) : app * option raised :=
  let tag := Str.lower (Text.strip (tag_entry a)) in
  let path := Text.strip (path_entry a) in
  if Text.truthy tag && Text.truthy path then
    let a := with_sorting_rules (Dict.set (sorting_rules a) tag path) a in
    match save_settings writing a with
    | (a, None) => (refresh_table a, None)
    | (a, Some e) => (a, Some e)
    end
  else (a, None).

(** [remove_tag]; [selected] is the tag that the table reports for the
    selected row, [None] when no row is selected. *)
Definition remove_tag (selected : option string) (writing : write_outcome)
    (a : app) : app * option raised :=
  match selected with
  | None => (a, None)
  | Some tag =>
      match Dict.del (sorting_rules a) tag with
      | None => (a, Some (KeyError tag))
      | Some d =>
          match save_settings writing (with_sorting_rules d a) with
          | (a, None) => (refresh_table a, None)
          | (a, Some e) => (a, Some e)
          end
      end
  end.

(** [show_warning] *)
Definition show_warning (title message : string) (a : app) : app :=
  with_warnings (warnings a ++ [(title, message)]) a.

(** [start_monitoring]; [start_ok] is whether [schedule] and
    [self.observer.start()] return.  The observer is assigned before it
    is scheduled and started, so that a failure leaves it assigned. *)
Definition start_monitoring (start_ok : bool) (a : app) : app * option raised :=
  if negb (Text.truthy (watch_folder a)) then
    (show_warning "Error" "Please select a watch folder!" a, None)
  else
    let created := {| obs_path := watch_folder a; obs_started := false |} in
    let a := with_observer (Some created) a in
    if start_ok then
      (with_start_button "Stop Monitoring"
         (with_observer
            (Some {| obs_path := obs_path created; obs_started := true |}) a),
       None)
    else (a, Some OSError).

(** [stop_monitoring]: [stop()], then [join()], which raises for a
    thread that was never started. *)
Definition stop_monitoring (a : app) : app * option raised :=
  match observer a with
  | None => (a, None)
  | Some o =>
      if obs_started o then
        (with_start_button "Start Monitoring" (with_observer None a), None)
      else (a, Some RuntimeError)
  end.

(** [toggle_monitoring] *)
Definition toggle_monitoring (start_ok : bool) (a : app) : app * option raised :=
  match observer a with
  | Some _ => stop_monitoring a
  | None => start_monitoring start_ok a
  end.

(** [on_closing] *)
Definition on_closing (a : app) : app * option raised :=
  match stop_monitoring a with
  | (a, None) => (with_destroyed true a, None)
  | (a, Some e) => (a, Some e)
  end.

(** The [sorting_rules] that the handler of the observer reads when an
    event reaches it: the [dict] of the application, as it is then. *)
Definition handler_rules (a : app) : gmap string string :=
  list_to_map (sorting_rules a).

(** What the user does with the window.  An exception raised by a
    callback is reported and the window lives on with the state the
    callback left. *)
Inductive action : Type :=
| EditTag (text : string)
| EditPath (text : string)
| EditWatchFolder (text : string)
| BrowsePath (folder : string)
| BrowseWatchFolder (folder : string) (writing : write_outcome)
| Add (writing : write_outcome)
| Remove (selected : option string) (writing : write_outcome)
| Toggle (start_ok : bool)
| Close.

Definition step (x : action) (a : app) : app * option raised :=
  if destroyed a then (a, None)
  else
    match x with
    | EditTag text => (with_tag_entry text a, None)
    | EditPath text => (with_path_entry text a, None)
    | EditWatchFolder text => (with_watch_folder text a, None)
    | BrowsePath folder => (choose_folder folder a, None)
    | BrowseWatchFolder folder writing => choose_watch_folder folder writing a
    | Add writing => add_tag writing a
    | Remove selected writing => remove_tag selected writing a
    | Toggle start_ok => toggle_monitoring start_ok a
    | Close => on_closing a
    end.

(** The state after a sequence of actions. *)
Definition run (xs : list action) (a : app) : app :=
  foldl (fun a x => (step x a).1) a xs.

End AutoSorterApp.

(** * Vocabulary of the statements *)

(** The rest of [TAG_PATTERN] after [.*?]: the closing bracket. *)
Definition closing : string -> option string :=
  Re.rmatch [Re.One (Re.Lit "]")].

(** The paths [get_unique_filename] tries, in order: the literal name,
    then the numbered ones. *)
Definition tries (destination file_name : string) (k : nat) : string :=
  match k with
  | O => OsPath.join destination file_name
  | S _ =>
      OsPath.join destination
        (numbered (OsPath.splitext file_name).1 k (OsPath.splitext file_name).2)
  end.

(** [p] is an entry of the directory [destination]: the join of the
    directory and a name that holds no separator. *)
Definition entry_of (destination p : string) : Prop :=
  exists name, p = OsPath.join destination name /\ Str.occurs "/" name = false.

(** Where [shutil.move] puts the source: into [dst] when that is a
    directory, at [dst] otherwise. *)
Definition real_destination (fs : filesystem) (src dst : string) : string :=
  if path_isdir fs dst
  then OsPath.join dst (OsPath.basename (Str.rstrip "/" src))
  else dst.

(** A watch folder with one tagged file in it and an empty destination
    folder, for the examples. *)
Definition one_arrival : filesystem :=
  <["/watch/[a] x.bin" := File "abcdef"]> (<["/dest" := Dir]> ∅).

(** Another process puts a file of its own at the path the resolver
    has just found free. *)
Definition squat (fs : filesystem) : filesystem :=
  <["/dest/[a] x.bin" := File "other"]> fs.

(** The elapsed time at the start of poll [i]. *)
Definition at_poll (interval : Z) (i : nat) : Z := (Z.of_nat i * interval)%Z.

(** A key as [add_tag] makes them: not empty, in lower case, without
    white space at either end. *)
Definition normal_key (k : string) : Prop :=
  k <> "" /\ Str.lower k = k /\ Text.strip k = k.

(** A destination as [add_tag] makes them. *)
Definition normal_path (p : string) : Prop :=
  p <> "" /\ Text.strip p = p.

(** An observer whose thread runs. *)
Definition monitoring (a : AutoSorterApp.app) : Prop :=
  exists folder,
    AutoSorterApp.observer a
    = Some {| AutoSorterApp.obs_path := folder;
              AutoSorterApp.obs_started := true |}.


(** An entry that holds nothing but white space. *)
Definition blank (s : string) : bool :=
  forallb Text.isspace (list_ascii_of_string s).

(** What [add_tag] reads from the two entries. *)
Definition entered_tag (a : AutoSorterApp.app) : string :=
  Str.lower (Text.strip (AutoSorterApp.tag_entry a)).

Definition entered_path (a : AutoSorterApp.app) : string :=
  Text.strip (AutoSorterApp.path_entry a).

(** The file that [save_settings] writes in the state [a]. *)
Definition saved (a : AutoSorterApp.app) : AutoSorterApp.settings :=
  {| AutoSorterApp.sorting_rules_member := Some (AutoSorterApp.sorting_rules a);
     AutoSorterApp.watch_folder_member := Some (AutoSorterApp.watch_folder a) |}.

(** The application started again on the settings file as [a] has left
    it; [None]: [json.load] raises in [load_settings] and [__init__]
    does not complete. *)
Definition restart (a : AutoSorterApp.app) : option AutoSorterApp.app :=
  match AutoSorterApp.config_file a with
  | AutoSorterApp.Loadable file => Some (AutoSorterApp.init file)
  | AutoSorterApp.Torn => None
  end.

(** The action writes the settings file without fail, if it writes it
    at all. *)
Definition saves (x : AutoSorterApp.action) : bool :=
  match x with
  | AutoSorterApp.BrowseWatchFolder _ writing
  | AutoSorterApp.Add writing
  | AutoSorterApp.Remove _ writing =>
      match writing with
      | AutoSorterApp.Written => true
      | _ => false
      end
  | _ => true
  end.

(** The action is neither the monitoring button nor the closing of the
    window. *)
Definition leaves_observer (x : AutoSorterApp.action) : bool :=
  match x with
  | AutoSorterApp.Toggle _ | AutoSorterApp.Close => false
  | _ => true
  end.

(** What holds of the application object whatever the user does. *)
Definition consistent (a : AutoSorterApp.app) : Prop :=
  NoDup (AutoSorterApp.sorting_rules a).*1
  /\ (AutoSorterApp.start_button a = "Stop Monitoring" <-> monitoring a)
  /\ (forall o, AutoSorterApp.observer a = Some o ->
        AutoSorterApp.obs_path o <> "")
  /\ (AutoSorterApp.destroyed a = true -> AutoSorterApp.observer a = None).

(** A rule as [add_tag] makes them. *)
Definition normal_rule (m : string * string) : Prop :=
  normal_key m.1 /\ normal_path m.2.

(** The action types into the entry of the watch folder. *)
Definition types_folder (x : AutoSorterApp.action) : bool :=
  match x with
  | AutoSorterApp.EditWatchFolder _ => true
  | _ => false
  end.

(** * Properties *)

(** ** Strings *)

Section string_facts.

Implicit Types (s t u : string) (c : ascii).

Lemma occurs_head_false c a s :
  Str.occurs c (String a s) = false ->
  Ascii.eqb a c = false /\ Str.occurs c s = false.
Proof. simpl. destruct (Ascii.eqb a c); [discriminate | auto]. Qed.

Lemma app_nil_l t : "" +:+ t = t.
Proof. reflexivity. Qed.

Lemma app_cons a s t : String a s +:+ t = String a (s +:+ t).
Proof. reflexivity. Qed.

Lemma app_empty_r s : s +:+ "" = s.
Proof.
  induction s as [|a s IH]; [reflexivity|]. rewrite app_cons. f_equal. exact IH.
Qed.

Lemma occurs_app c s t :
  Str.occurs c (s +:+ t) = Str.occurs c s || Str.occurs c t.
Proof.
  induction s as [|a s IH]; [reflexivity|]. rewrite app_cons. simpl.
  destruct (Ascii.eqb a c); [reflexivity | exact IH].
Qed.

Lemma length_app s t :
  String.length (s +:+ t) = String.length s + String.length t.
Proof.
  induction s as [|a s IH]; [reflexivity|]. rewrite app_cons. simpl.
  f_equal. exact IH.
Qed.

(** Cancellation of a common suffix. *)
Lemma app_inv_suffix s1 s2 t : s1 +:+ t = s2 +:+ t -> s1 = s2.
Proof.
  revert s2. induction s1 as [|a s1 IH]; intros [|b s2] H.
  - reflexivity.
  - apply (f_equal String.length) in H.
    rewrite app_cons, app_nil_l in H. simpl in H. rewrite length_app in H. lia.
  - apply (f_equal String.length) in H.
    rewrite app_cons, app_nil_l in H. simpl in H. rewrite length_app in H. lia.
  - rewrite !app_cons in H. injection H as -> H. f_equal. now apply IH.
Qed.

Lemma take_drop n s : Str.take n s +:+ Str.drop n s = s.
Proof.
  revert s. induction n as [|n IH]; intros [|a s]; simpl; try reflexivity.
  rewrite app_cons. f_equal. apply IH.
Qed.

Lemma take_app s t : Str.take (String.length s) (s +:+ t) = s.
Proof.
  induction s as [|a s IH]; [now destruct t|]. rewrite app_cons. simpl.
  f_equal. exact IH.
Qed.

Lemma drop_app s t : Str.drop (String.length s) (s +:+ t) = t.
Proof. induction s as [|a s IH]; [reflexivity|]. rewrite app_cons. exact IH. Qed.

(** The character at an index in range heads what is left of the
    slice that ends at [d]. *)
Lemma drop_take_cons f d s :
  f < d -> d <= String.length s ->
  exists c, String.get f s = Some c
    /\ Str.drop f (Str.take d s) = String c (Str.drop (S f) (Str.take d s)).
Proof.
  revert d s. induction f as [|f IH]; intros [|d] [|a s] Hf Hd;
    simpl in *; try lia.
  - eauto.
  - destruct (IH d s) as (c & Hc & Heq); [lia | lia |]. eauto.
Qed.

Lemma drop_take_all d s :
  d <= String.length s -> Str.drop d (Str.take d s) = "".
Proof.
  revert s. induction d as [|d IH]; intros [|a s] Hd; simpl in *;
    try reflexivity; try lia.
  apply IH. lia.
Qed.

Lemma rfind_from_absent i c s :
  Str.occurs c s = false -> Str.rfind_from i c s = (-1)%Z.
Proof.
  revert i. induction s as [|a s IH]; intros i H; [reflexivity|].
  apply occurs_head_false in H as [Ha H]. simpl. now rewrite (IH _ H), Ha.
Qed.

Lemma rfind_from_last i c s t :
  (0 <= i)%Z -> Str.occurs c t = false ->
  Str.rfind_from i c (s +:+ String c t) = (i + Z.of_nat (String.length s))%Z.
Proof.
  revert i. induction s as [|a s IH]; intros i Hi Ht.
  - simpl. rewrite (rfind_from_absent _ _ _ Ht), Ascii.eqb_refl. simpl. lia.
  - change (String a s +:+ String c t) with (String a (s +:+ String c t)).
    cbn [Str.rfind_from]. rewrite IH by (lia || assumption).
    destruct (Z.eqb_spec (i + 1 + Z.of_nat (String.length s)) (-1)); [lia|].
    cbn [String.length]. lia.
Qed.

End string_facts.

(** ** [os.path] *)

Section os_path_facts.

Implicit Types (p b e : string).

Lemma splitext_scan_app n p f d :
  (OsPath.splitext_scan n p f d).1 +:+ (OsPath.splitext_scan n p f d).2 = p.
Proof.
  revert f. induction n as [|n IH]; intros f; simpl; [apply app_empty_r|].
  destruct (f <? d)%Z; [|apply app_empty_r].
  destruct (String.get _ p) as [c|]; [|apply take_drop].
  destruct (Ascii.eqb c "."); [apply IH | apply take_drop].
Qed.

(** [splitext] cuts its argument in two. *)
Lemma splitext_app p : (OsPath.splitext p).1 +:+ (OsPath.splitext p).2 = p.
Proof.
  unfold OsPath.splitext. destruct (_ <? _)%Z; [|apply app_empty_r].
  apply splitext_scan_app.
Qed.

(** The scan from [f] up to the last dot at [d]: an extension is split
    off unless only dots stand between. *)
Lemma splitext_scan_spec n p (f d : nat) :
  f <= d -> d <= String.length p -> d - f <= n ->
  OsPath.splitext_scan n p (Z.of_nat f) (Z.of_nat d) =
  if Str.only "." (Str.drop f (Str.take d p))
  then (p, "") else (Str.take d p, Str.drop d p).
Proof.
  revert f. induction n as [|n IH]; intros f Hf Hd Hn.
  - assert (f = d) as -> by lia. now rewrite drop_take_all.
  - cbn [OsPath.splitext_scan]. destruct (Z.ltb_spec (Z.of_nat f) (Z.of_nat d)).
    + destruct (drop_take_cons f d p) as (c & Hc & Heq); [lia | lia |].
      rewrite Nat2Z.id, Hc, Heq. cbn [Str.only].
      destruct (Ascii.eqb c "."); cbn [andb]; [|now rewrite Nat2Z.id].
      replace (Z.of_nat f + 1)%Z with (Z.of_nat (S f)) by lia.
      apply IH; lia.
    + assert (f = d) as -> by lia. now rewrite drop_take_all.
Qed.

(** A plain name with a dot: the part after the last dot is the
    extension, unless only dots come before it. *)
Lemma splitext_last_dot b e :
  Str.occurs "/" (b +:+ "." +:+ e) = false -> Str.occurs "." e = false ->
  OsPath.splitext (b +:+ "." +:+ e) =
  if Str.only "." b then (b +:+ "." +:+ e, "") else (b, "." +:+ e).
Proof.
  intros Hs He. unfold OsPath.splitext, Str.rfind.
  rewrite (rfind_from_absent _ _ _ Hs).
  change (b +:+ "." +:+ e) with (b +:+ String "." e).
  rewrite (rfind_from_last 0 "." b e) by (lia || assumption).
  destruct (Z.ltb_spec (-1) (0 + Z.of_nat (String.length b))); [|lia].
  change (-1 + 1)%Z with (Z.of_nat 0). rewrite Z.add_0_l.
  rewrite splitext_scan_spec;
    [| lia | rewrite length_app; lia | rewrite length_app; lia].
  cbn [Str.drop]. rewrite take_app, drop_app. reflexivity.
Qed.

(** A plain name without a dot has no extension. *)
Lemma splitext_no_dot p :
  Str.occurs "." p = false -> OsPath.splitext p = (p, "").
Proof.
  intros Hd. unfold OsPath.splitext, Str.rfind.
  rewrite (rfind_from_absent _ "." _ Hd).
  destruct (Z.ltb_spec (Str.rfind_from 0 "/" p) (-1)); [|reflexivity].
  exfalso. clear Hd.
  assert (forall i, (0 <= i)%Z -> (-1 <= Str.rfind_from i "/" p)%Z) as Hge.
  { clear H. induction p as [|a p IH]; intros i Hi; simpl; [lia|].
    specialize (IH (i + 1)%Z ltac:(lia)).
    destruct (_ =? -1)%Z; [destruct (Ascii.eqb a "/"); lia | lia]. }
  specialize (Hge 0%Z ltac:(lia)). lia.
Qed.

(** Two names that both are, or both are not, absolute: joined to the
    same directory they give different paths unless they are equal. *)
Lemma join_inj a b b' :
  Str.startswith "/" b = Str.startswith "/" b' ->
  OsPath.join a b = OsPath.join a b' -> b = b'.
Proof.
  unfold OsPath.join. intros <-.
  destruct (Str.startswith "/" b); [easy|].
  destruct a as [|c a]; [easy|].
  destruct (Str.endswith "/" (String c a)); intros H.
  - now apply String.app_inj in H.
  - apply String.app_inj in H. now apply String.app_inj in H.
Qed.

End os_path_facts.

(** ** The destination resolver *)

Section destination_resolver.

Variables (fs : filesystem) (destination file_name : string).

Lemma get_unique_filename_fuel_unfold fuel :
  get_unique_filename_fuel fuel fs destination file_name =
  unique_loop fuel fs destination
    (OsPath.splitext file_name).1 (OsPath.splitext file_name).2
    (tries destination file_name 0) 1.
Proof.
  unfold get_unique_filename_fuel.
  now destruct (OsPath.splitext file_name).
Qed.

(** The loop walks along [tries] and returns the first free path. *)
Lemma unique_loop_reaches fuel j k :
  j <= k -> k - j < fuel ->
  (forall i, j <= i < k -> path_exists fs (tries destination file_name i) = true) ->
  path_exists fs (tries destination file_name k) = false ->
  unique_loop fuel fs destination
    (OsPath.splitext file_name).1 (OsPath.splitext file_name).2
    (tries destination file_name j) (S j)
  = Some (tries destination file_name k).
Proof.
  revert j. induction fuel as [|fuel IH]; intros j Hjk Hfuel Hocc Hfree; [lia|].
  cbn [unique_loop]. destruct (decide (j = k)) as [->|Hne].
  - now rewrite Hfree.
  - rewrite Hocc by lia. rewrite Nat.add_1_r.
    apply (IH (S j)); [lia | lia | | exact Hfree].
    intros i Hi. apply Hocc. lia.
Qed.

Lemma pretty_go_no_slash (x : N) (s : string) :
  Str.occurs "/" s = false -> Str.occurs "/" (pretty_N_go x s) = false.
Proof.
  revert s. induction (N.lt_wf_0 x) as [x _ IH]; intros s Hs.
  destruct (decide (x = 0%N)) as [->|Hx]; [now rewrite pretty_N_go_0|].
  rewrite pretty_N_go_step by lia. apply IH; [apply N.div_lt; lia|].
  cbn [Str.occurs]. rewrite Hs.
  unfold pretty_N_char. now repeat case_match.
Qed.

Lemma pretty_no_slash (k : nat) : Str.occurs "/" (pretty k) = false.
Proof.
  unfold pretty, pretty_nat, pretty, pretty_N.
  case_decide; [reflexivity | now apply pretty_go_no_slash].
Qed.

Lemma numbered_inj b e j k : numbered b j e = numbered b k e -> j = k.
Proof.
  unfold numbered. intros H.
  apply String.app_inj in H. apply String.app_inj in H.
  apply app_inv_suffix in H. now apply (inj pretty) in H.
Qed.

Lemma numbered_startswith b e j k :
  Str.startswith "/" (numbered b j e) = Str.startswith "/" (numbered b k e).
Proof. unfold numbered. now destruct b. Qed.

(** The numbered paths are pairwise different. *)
Lemma tries_inj j k :
  tries destination file_name (S j) = tries destination file_name (S k) ->
  j = k.
Proof.
  unfold tries. intros H.
  apply join_inj in H; [|apply numbered_startswith].
  apply numbered_inj in H. lia.
Qed.

(** So a finite file system cannot hold all of the first
    [size fs + 1] of them. *)
Lemma tries_free_exists :
  exists k, k <= size fs + 1 /\ path_exists fs (tries destination file_name k) = false.
Proof.
  set (l := (fun k => tries destination file_name (S k)) <$> seq 0 (S (size fs))).
  destruct (decide (Forall (fun p => path_exists fs p = true) l)) as [Hall|Hnot].
  - exfalso.
    assert (NoDup l) as Hnd.
    { apply NoDup_fmap_2; [|apply NoDup_seq]. intros j k. apply tries_inj. }
    assert (list_to_set l ⊆ dom fs) as Hsub.
    { intros p Hp. apply elem_of_list_to_set in Hp.
      rewrite Forall_forall in Hall. specialize (Hall p Hp).
      apply elem_of_dom. unfold path_exists in Hall.
      destruct (fs !! p); [eauto | discriminate]. }
    apply subseteq_size in Hsub.
    rewrite size_list_to_set, size_dom in Hsub by exact Hnd.
    unfold l in Hsub. rewrite length_fmap, length_seq in Hsub. lia.
  - apply not_Forall_Exists in Hnot; [|intros p; apply _].
    apply Exists_exists in Hnot as (p & Hp & Hfree).
    apply list_elem_of_fmap in Hp as (k & -> & Hk).
    apply elem_of_seq in Hk. exists (S k). split; [lia|].
    apply not_true_is_false. exact Hfree.
Qed.

(** The first place at which a bounded search succeeds. *)
Lemma first_true (P : nat -> bool) m :
  P m = true ->
  exists k, k <= m /\ P k = true /\ forall j, j < k -> P j = false.
Proof.
  revert P. induction m as [|m IH]; intros P Hm.
  - exists 0. repeat split; [lia | exact Hm | lia].
  - destruct (P 0) eqn:H0.
    + exists 0. repeat split; [lia | exact H0 | lia].
    + destruct (IH (fun i => P (S i)) Hm) as (k & Hk & Hpk & Hlt).
      exists (S k). repeat split; [lia | exact Hpk |].
      intros [|j] Hj; [exact H0 | apply Hlt; lia].
Qed.

Lemma tries_first_free :
  exists k, k <= size fs + 1 /\ path_exists fs (tries destination file_name k) = false
    /\ forall j, j < k -> path_exists fs (tries destination file_name j) = true.
Proof.
  destruct tries_free_exists as (m & Hm & Hfree).
  destruct (first_true
              (fun i => negb (path_exists fs (tries destination file_name i))) m)
    as (k & Hk & Hpk & Hlt); [now rewrite Hfree|].
  exists k. repeat split; [lia | now apply negb_true_iff in Hpk |].
  intros j Hj. specialize (Hlt j Hj). now apply negb_false_iff in Hlt.
Qed.

(** Every path tried names an entry of the directory, for a file name
    without separators. *)
Lemma tries_entry k :
  Str.occurs "/" file_name = false ->
  entry_of destination (tries destination file_name k).
Proof.
  intros Hname. destruct k as [|k]; [now exists file_name|].
  exists (numbered (OsPath.splitext file_name).1 (S k)
            (OsPath.splitext file_name).2).
  split; [reflexivity|].
  pose proof (splitext_app file_name) as Happ. 
  rewrite <- Happ, occurs_app in Hname. apply orb_false_iff in Hname as [Hb He].
  unfold numbered. rewrite !occurs_app, Hb, He, pretty_no_slash. reflexivity.
Qed.

End destination_resolver.

(** ** The tag extractor *)

Section tag_extractor.

Lemma closing_other c rest :
  Ascii.eqb c "]" = false -> closing (String c rest) = None.
Proof. intros H. unfold closing. simpl. now rewrite H. Qed.

(** [.*?] runs over a body free of [']'] and of line feeds and stops
    at the bracket that follows it. *)
Lemma lazy_star_stops X rest :
  Str.occurs "]" X = false -> Str.occurs Str.LF X = false ->
  Re.lazy_star Re.Dot closing (X +:+ String "]" rest) = Some (X +:+ "]").
Proof.
  induction X as [|c X IH]; intros Hb Hn.
  - reflexivity.
  - apply occurs_head_false in Hb as [Hc Hb].
    apply occurs_head_false in Hn as [Hl Hn].
    change (String c X +:+ String "]" rest)
      with (String c (X +:+ String "]" rest)).
    cbn [Re.lazy_star]. rewrite (closing_other _ _ Hc).
    cbn [Re.accepts]. rewrite Hl. cbn [negb].
    now rewrite (IH Hb Hn).
Qed.

(** A line feed met before the first [']'] ends the attempt. *)
Lemma lazy_star_line_feed X rest :
  Str.occurs "]" X = false -> Str.occurs Str.LF X = true ->
  Re.lazy_star Re.Dot closing (X +:+ rest) = None.
Proof.
  induction X as [|c X IH]; intros Hb Hn; [discriminate|].
  apply occurs_head_false in Hb as [Hc Hb].
  change (String c X +:+ rest) with (String c (X +:+ rest)).
  cbn [Re.lazy_star]. rewrite (closing_other _ _ Hc).
  cbn [Re.accepts]. simpl in Hn.
  destruct (Ascii.eqb c Str.LF); cbn [negb]; [reflexivity|].
  now rewrite (IH Hb Hn).
Qed.

Lemma lazy_star_unclosed a s :
  Str.occurs "]" s = false -> Re.lazy_star a closing s = None.
Proof.
  induction s as [|c s IH]; intros Hb; [reflexivity|].
  apply occurs_head_false in Hb as [Hc Hb].
  cbn [Re.lazy_star]. rewrite (closing_other _ _ Hc), (IH Hb).
  now destruct (Re.accepts a c).
Qed.

Lemma extract_tag_open s :
  extract_tag (String "[" s) =
  Str.lower <$> (String "["%char <$> Re.lazy_star Re.Dot closing s).
Proof.
  change (extract_tag (String "[" s))
    with (match String "["%char <$> Re.lazy_star Re.Dot closing s with
          | Some group1 => Some (Str.lower group1)
          | None => None
          end).
  now destruct (Re.lazy_star Re.Dot closing s).
Qed.

Lemma extract_tag_not_open c s :
  c <> "["%char -> extract_tag (String c s) = None.
Proof.
  intros Hc. unfold extract_tag, TAG_PATTERN. cbn [Re.rmatch Re.accepts].
  now apply Ascii.eqb_neq in Hc as ->.
Qed.

(** C1, as the code has it.  A name that opens with ['['], whose body up
    to the first [']'] holds no line feed, yields the bracketed prefix
    lower-cased, whatever follows; with a line feed before the first
    [']'] it yields nothing.  A name that does not open with ['['] (an
    empty name, or brackets further on) or that has no [']'] yields
    nothing. *)
Theorem extract_tag_leading_bracket (file_name : string) :
  (forall X rest,
      file_name = "[" +:+ X +:+ "]" +:+ rest ->
      Str.occurs "]" X = false -> Str.occurs Str.LF X = false ->
      extract_tag file_name = Some (Str.lower ("[" +:+ X +:+ "]")))
  /\ (forall X rest,
      file_name = "[" +:+ X +:+ "]" +:+ rest ->
      Str.occurs "]" X = false -> Str.occurs Str.LF X = true ->
      extract_tag file_name = None)
  /\ (forall c rest, file_name = String c rest -> c <> "["%char ->
      extract_tag file_name = None)
  /\ (file_name = EmptyString -> extract_tag file_name = None)
  /\ (Str.occurs "]" file_name = false -> extract_tag file_name = None).
Proof.
  repeat split.
  - intros X rest -> Hb Hn.
    change ("[" +:+ X +:+ "]" +:+ rest) with (String "[" (X +:+ String "]" rest)).
    rewrite extract_tag_open, (lazy_star_stops _ _ Hb Hn). reflexivity.
  - intros X rest -> Hb Hn.
    change ("[" +:+ X +:+ "]" +:+ rest) with (String "[" (X +:+ ("]" +:+ rest))).
    rewrite extract_tag_open, (lazy_star_line_feed _ _ Hb Hn). reflexivity.
  - intros c rest -> Hc. now apply extract_tag_not_open.
  - intros ->. reflexivity.
  - intros Hb. destruct file_name as [|c s]; [reflexivity|].
    destruct (Ascii.ascii_dec c "[") as [->|Hc].
    + apply occurs_head_false in Hb as [_ Hb].
      rewrite extract_tag_open, (lazy_star_unclosed _ _ Hb). reflexivity.
    + now apply extract_tag_not_open.
Qed.

Lemma extract_tag_leading_bracket_witness :
  extract_tag "[Invoice] march.pdf" = Some "[invoice]"
  /\ extract_tag ("[a" +:+ String Str.LF "b]c") = None
  /\ extract_tag "march [Invoice].pdf" = None
  /\ extract_tag "" = None
  /\ extract_tag "[Invoice march.pdf" = None.
Proof.
  pose proof (extract_tag_leading_bracket "[Invoice] march.pdf") as (H1 & _).
  pose proof (extract_tag_leading_bracket ("[a" +:+ String Str.LF "b]c"))
    as (_ & H2 & _).
  pose proof (extract_tag_leading_bracket "march [Invoice].pdf")
    as (_ & _ & H3 & _).
  pose proof (extract_tag_leading_bracket "") as (_ & _ & _ & H4 & _).
  pose proof (extract_tag_leading_bracket "[Invoice march.pdf")
    as (_ & _ & _ & _ & H5).
  split; [exact (H1 "Invoice" " march.pdf" eq_refl eq_refl eq_refl)|].
  split; [exact (H2 ("a" +:+ String Str.LF "b") "c" eq_refl eq_refl eq_refl)|].
  split; [apply (H3 "m"%char "arch [Invoice].pdf" eq_refl); discriminate|].
  split; [exact (H4 eq_refl) | exact (H5 eq_refl)].
Defined.

(** C1 as the specification words it, any characters between the
    brackets, fails on a name with a line feed in its tag. *)
Lemma extract_tag_any_characters_counterexample :
  Str.occurs "]" ("a" +:+ String Str.LF "b") = false
  /\ extract_tag ("[" +:+ ("a" +:+ String Str.LF "b") +:+ "]" +:+ "c") = None
  /\ ~ (forall X rest, Str.occurs "]" X = false ->
          extract_tag ("[" +:+ X +:+ "]" +:+ rest)
          = Some (Str.lower ("[" +:+ X +:+ "]"))).
Proof.
  split; [reflexivity|]. split; [reflexivity|].
  intros H. specialize (H ("a" +:+ String Str.LF "b") "c" eq_refl).
  discriminate H.
Qed.

End tag_extractor.

Section destination_resolver_claims.

Variables (fs : filesystem) (destination : string).

Lemma first_free_unique file_name k :
  path_exists fs (tries destination file_name k) = false ->
  (forall j, j < k -> path_exists fs (tries destination file_name j) = true) ->
  k <= size fs + 1.
Proof.
  intros Hfree Hocc.
  destruct (tries_first_free fs destination file_name) as (k0 & Hk0 & Hfree0 & Hocc0).
  destruct (Nat.lt_trichotomy k k0) as [Hlt|[->|Hgt]]; [| exact Hk0 |].
  - rewrite (Hocc0 _ Hlt) in Hfree. discriminate.
  - rewrite (Hocc _ Hgt) in Hfree0. discriminate.
Qed.

Lemma get_unique_filename_fuel_first_free file_name fuel k :
  k < fuel ->
  path_exists fs (tries destination file_name k) = false ->
  (forall j, j < k -> path_exists fs (tries destination file_name j) = true) ->
  get_unique_filename_fuel fuel fs destination file_name
  = Some (tries destination file_name k).
Proof.
  intros Hfuel Hfree Hocc. rewrite get_unique_filename_fuel_unfold.
  apply unique_loop_reaches; [lia | lia | | exact Hfree].
  intros i Hi. apply Hocc. lia.
Qed.

Lemma get_unique_filename_first_free file_name k :
  path_exists fs (tries destination file_name k) = false ->
  (forall j, j < k -> path_exists fs (tries destination file_name j) = true) ->
  get_unique_filename fs destination file_name
  = Some (tries destination file_name k).
Proof.
  intros Hfree Hocc. apply get_unique_filename_fuel_first_free; [|assumption..].
  pose proof (first_free_unique _ _ Hfree Hocc). lia.
Qed.

(** C3.  [get_unique_filename] returns, for every file system,
    directory and name: the path it returns is the first of [tries]
    (the literal name, then [base_1.ext], [base_2.ext], ...) that does
    not exist, every earlier one exists, more fuel changes nothing, and
    for a name without separators the path is an entry of the
    directory.  No counter is too high: whenever the first [k] paths
    exist and the next does not, that one is returned.  With
    [report.txt] and [report_1.txt] present and [report_2.txt] not,
    [report.txt] resolves to [report_2.txt]. *)
Theorem get_unique_filename_resolves :
  (forall file_name,
      exists k,
        get_unique_filename fs destination file_name
        = Some (tries destination file_name k)
        /\ path_exists fs (tries destination file_name k) = false
        /\ (forall j, j < k ->
              path_exists fs (tries destination file_name j) = true)
        /\ (forall fuel, size fs + 2 <= fuel ->
              get_unique_filename_fuel fuel fs destination file_name
              = Some (tries destination file_name k))
        /\ (Str.occurs "/" file_name = false ->
              entry_of destination (tries destination file_name k)))
  /\ (forall file_name k,
        (forall j, j < k ->
           path_exists fs (tries destination file_name j) = true) ->
        path_exists fs (tries destination file_name k) = false ->
        get_unique_filename fs destination file_name
        = Some (tries destination file_name k))
  /\ (path_exists fs (OsPath.join destination "report.txt") = true ->
      path_exists fs (OsPath.join destination "report_1.txt") = true ->
      path_exists fs (OsPath.join destination "report_2.txt") = false ->
      get_unique_filename fs destination "report.txt"
      = Some (OsPath.join destination "report_2.txt")).
Proof.
  split; [|split].
  - intros file_name.
    destruct (tries_first_free fs destination file_name) as (k & Hk & Hfree & Hocc).
    exists k. repeat split; try assumption.
    + now apply get_unique_filename_first_free.
    + intros fuel Hfuel. apply get_unique_filename_fuel_first_free; [lia|assumption..].
    + intros Hname. now apply tries_entry.
  - intros file_name k Hocc Hfree. now apply get_unique_filename_first_free.
  - intros H0 H1 H2.
    change (OsPath.join destination "report_2.txt")
      with (tries destination "report.txt" 2).
    apply get_unique_filename_first_free; [exact H2|].
    intros [|[|j]] Hj; [exact H0 | exact H1 | lia].
Qed.

End destination_resolver_claims.

Lemma get_unique_filename_resolves_witness :
  get_unique_filename
    (<["/dest/report.txt" := File "a"]>
       (<["/dest/report_1.txt" := File "b"]> (<["/dest" := Dir]> ∅)))
    "/dest" "report.txt"
  = Some "/dest/report_2.txt"
  /\ entry_of "/dest" "/dest/report_2.txt".
Proof.
  pose (fs := (<["/dest/report.txt" := File "a"]>
                (<["/dest/report_1.txt" := File "b"]> (<["/dest" := Dir]> ∅)))
              : filesystem).
  destruct (get_unique_filename_resolves fs "/dest") as (Hall & Hk & Hreport).
  split.
  - exact (Hreport eq_refl eq_refl eq_refl).
  - destruct (Hall "report.txt") as (k & Hget & _ & _ & _ & Hentry).
    specialize (Hentry eq_refl).
    rewrite (Hreport eq_refl eq_refl eq_refl) in Hget.
    injection Hget as Hget. rewrite <- Hget in Hentry. exact Hentry.
Defined.

Section counter_placement.

Variables (fs : filesystem) (destination : string).

Lemma tries_with_extension b e k :
  Str.occurs "/" (b +:+ "." +:+ e) = false -> Str.occurs "." e = false ->
  Str.only "." b = false ->
  tries destination (b +:+ "." +:+ e) (S k)
  = OsPath.join destination (b +:+ "_" +:+ pretty (S k) +:+ "." +:+ e).
Proof.
  intros Hs He Hb. unfold tries.
  rewrite (splitext_last_dot _ _ Hs He), Hb. reflexivity.
Qed.

Lemma tries_leading_dots b e k :
  Str.occurs "/" (b +:+ "." +:+ e) = false -> Str.occurs "." e = false ->
  Str.only "." b = true ->
  tries destination (b +:+ "." +:+ e) (S k)
  = OsPath.join destination ((b +:+ "." +:+ e) +:+ "_" +:+ pretty (S k)).
Proof.
  intros Hs He Hb. unfold tries.
  rewrite (splitext_last_dot _ _ Hs He), Hb. cbn [fst snd]. unfold numbered.
  now rewrite app_empty_r.
Qed.

Lemma tries_without_dot file_name k :
  Str.occurs "." file_name = false ->
  tries destination file_name (S k)
  = OsPath.join destination (file_name +:+ "_" +:+ pretty (S k)).
Proof.
  intros Hd. unfold tries.
  rewrite (splitext_no_dot _ Hd). cbn [fst snd]. unfold numbered.
  now rewrite app_empty_r.
Qed.

(** C10, as the code has it.  Let the literal name and the numbered
    paths below [k >= 1] exist and the [k]-th be free.  A plain name
    [b.e] whose last dot is the one before [e], with some character other
    than a dot in [b], resolves to [b_k.e]: the counter goes before the
    last extension only.  When [b] is empty or made of dots only, as in
    [..gz], [splitext] sees no extension and the name resolves to
    [b.e_k]; so does a name without a dot, [name_k].  A collision on
    [archive.tar.gz] yields [archive.tar_1.gz]. *)
Theorem counter_before_last_extension :
  (forall file_name k,
      1 <= k -> Str.occurs "/" file_name = false ->
      (forall j, j < k -> path_exists fs (tries destination file_name j) = true) ->
      path_exists fs (tries destination file_name k) = false ->
      (forall b e,
          file_name = b +:+ "." +:+ e -> Str.occurs "." e = false ->
          Str.only "." b = false ->
          get_unique_filename fs destination file_name
          = Some (OsPath.join destination (b +:+ "_" +:+ pretty k +:+ "." +:+ e)))
      /\ (forall b e,
          file_name = b +:+ "." +:+ e -> Str.occurs "." e = false ->
          Str.only "." b = true ->
          get_unique_filename fs destination file_name
          = Some (OsPath.join destination (file_name +:+ "_" +:+ pretty k)))
      /\ (Str.occurs "." file_name = false ->
          get_unique_filename fs destination file_name
          = Some (OsPath.join destination (file_name +:+ "_" +:+ pretty k))))
  /\ (path_exists fs (OsPath.join destination "archive.tar.gz") = true ->
      path_exists fs (OsPath.join destination "archive.tar_1.gz") = false ->
      get_unique_filename fs destination "archive.tar.gz"
      = Some (OsPath.join destination "archive.tar_1.gz")).
Proof.
  split.
  - intros file_name [|k] Hk Hname Hocc Hfree; [lia|].
    rewrite (get_unique_filename_first_free _ _ _ _ Hfree Hocc).
    repeat split.
    + intros b e -> He Hb. f_equal. now apply tries_with_extension.
    + intros b e -> He Hb. f_equal. now apply tries_leading_dots.
    + intros Hd. f_equal. now apply tries_without_dot.
  - intros H0 H1.
    change (OsPath.join destination "archive.tar_1.gz")
      with (tries destination "archive.tar.gz" 1).
    apply get_unique_filename_first_free; [exact H1|].
    intros [|j] Hj; [exact H0 | lia].
Qed.

End counter_placement.

Lemma counter_before_last_extension_witness :
  get_unique_filename (<["/dest/archive.tar.gz" := File "a"]> ∅)
    "/dest" "archive.tar.gz" = Some "/dest/archive.tar_1.gz"
  /\ get_unique_filename (<["/dest/..gz" := File "a"]> ∅)
    "/dest" "..gz" = Some "/dest/..gz_1"
  /\ get_unique_filename (<["/dest/notes" := File "a"]> ∅)
    "/dest" "notes" = Some "/dest/notes_1".
Proof.
  split; [|split].
  - pose (fs := (<["/dest/archive.tar.gz" := File "a"]> ∅) : filesystem).
    destruct (counter_before_last_extension fs "/dest") as (H & _).
    destruct (H "archive.tar.gz" 1) as (Hext & _);
      [lia | reflexivity | | reflexivity |].
    { intros [|j] Hj; [reflexivity | lia]. }
    exact (Hext "archive.tar" "gz" eq_refl eq_refl eq_refl).
  - pose (fs := (<["/dest/..gz" := File "a"]> ∅) : filesystem).
    destruct (counter_before_last_extension fs "/dest") as (H & _).
    destruct (H "..gz" 1) as (_ & Hdots & _);
      [lia | reflexivity | | reflexivity |].
    { intros [|j] Hj; [reflexivity | lia]. }
    exact (Hdots "." "gz" eq_refl eq_refl eq_refl).
  - pose (fs := (<["/dest/notes" := File "a"]> ∅) : filesystem).
    destruct (counter_before_last_extension fs "/dest") as (H & _).
    destruct (H "notes" 1) as (_ & _ & Hplain);
      [lia | reflexivity | | reflexivity |].
    { intros [|j] Hj; [reflexivity | lia]. }
    exact (Hplain eq_refl).
Defined.

(** C10 as worded fails on a name with two dots of which the first
    leads the name: the counter is not put before [.gz]. *)
Lemma counter_leading_dots_counterexample :
  get_unique_filename (<["/dest/..gz" := File "a"]> ∅) "/dest" "..gz"
  = Some "/dest/..gz_1"
  /\ get_unique_filename (<["/dest/..gz" := File "a"]> ∅) "/dest" "..gz"
     <> Some (OsPath.join "/dest" ("." +:+ "_" +:+ pretty 1 +:+ ".gz")).
Proof. split; [reflexivity | vm_compute; discriminate]. Qed.

(** ** The stability detector *)

Section stability_loop.

Variables (w : nat -> poll) (file_path : string) (timeout interval : Z).

Lemma at_poll_next i : (at_poll interval i + interval)%Z = at_poll interval (S i).
Proof. unfold at_poll. lia. Qed.

(** The loop test holds at poll [i] exactly below [max_polls]. *)
Lemma below_timeout i :
  (0 < interval)%Z ->
  (at_poll interval i <? timeout)%Z = true <-> i < max_polls timeout interval.
Proof.
  intros Hpos. unfold at_poll, max_polls. rewrite Z.ltb_lt.
  pose proof (Z.mul_div_le (timeout + interval - 1) interval Hpos) as Hlo.
  pose proof (Z.mul_succ_div_gt (timeout + interval - 1) interval Hpos) as Hhi.
  set (q := ((timeout + interval - 1) / interval)%Z) in *.
  split; intros H.
  - assert (Z.of_nat i < q)%Z by nia. lia.
  - assert (Z.of_nat i < q)%Z by lia. nia.
Qed.

(** From poll [i] on, with fuel for the polls that are left, the loop
    comes within [max_polls] to one of its three exits or to an [open]
    that does not return. *)
Lemma wait_loop_ends fuel prev i :
  (0 < interval)%Z ->
  i <= max_polls timeout interval -> max_polls timeout interval - i < fuel ->
  let r := wait_loop fuel w file_path timeout interval prev (at_poll interval i) i in
  polls r <= max_polls timeout interval
  /\ ((verdict r = Return true /\ printed r = [])
      \/ (exists e, verdict r = Raise e /\ printed r = [])
      \/ (verdict r = Blocked /\ printed r = [])
      \/ (verdict r = Return false
          /\ polls r = max_polls timeout interval
          /\ elapsed r = at_poll interval (max_polls timeout interval)
          /\ printed r = [timeout_line file_path])).
Proof.
  intros Hpos. revert prev i.
  induction fuel as [|fuel IH]; intros prev i Hi Hfuel; [lia|].
  cbn [wait_loop]. 
  destruct (at_poll interval i <? timeout)%Z eqn:Hlt.
  - apply below_timeout in Hlt; [|exact Hpos].
    rewrite !at_poll_next.
    destruct (p_exists (w i)); cbn [negb]; [|apply IH; lia].
    destruct (p_getsize (w i)) as [size|]; [|cbn; split; [lia | eauto]].
    destruct (Z.of_N size =? prev)%Z; [|apply IH; lia].
    destruct (p_open (w i));
      [cbn; split; [lia | eauto] | apply IH; lia
       | cbn; split; [lia | eauto] | cbn; split; [lia | auto]].
  - assert (i = max_polls timeout interval) as Heq.
    { destruct (decide (i < max_polls timeout interval)) as [Hb|Hb]; [|lia].
      apply below_timeout in Hb; [congruence | exact Hpos]. }
    cbn. rewrite <- Heq. split; [lia|]. right. right. right. auto.
Qed.



(** A verdict of stability comes from a poll that found the size of the
    sample before it: [prev] if no sample was taken since poll [i]. *)
Lemma wait_loop_stable fuel prev el i :
  let r := wait_loop fuel w file_path timeout interval prev el i in
  verdict r = Return true ->
  exists n size,
    polls r = S n /\ i <= n
    /\ p_exists (w n) = true /\ p_getsize (w n) = Some size
    /\ p_open (w n) = Opened
    /\ ((Z.of_N size = prev /\ forall k, i <= k < n -> p_exists (w k) = false)
        \/ (exists m, i <= m < n
              /\ p_exists (w m) = true /\ p_getsize (w m) = Some size
              /\ forall k, m < k < n -> p_exists (w k) = false)).
Proof.
  revert prev el i. induction fuel as [|fuel IH]; intros prev el i; [discriminate|].
  cbn [wait_loop]. 
  destruct (el <? timeout)%Z; [|discriminate].
  destruct (p_exists (w i)) eqn:Hex; cbn [negb].
  - destruct (p_getsize (w i)) as [size|] eqn:Hsz; [|discriminate].
    assert (forall r,
      r = wait_loop fuel w file_path timeout interval
            (Z.of_N size) (el + interval)%Z (S i) ->
      verdict r = Return true ->
      exists n size0,
        polls r = S n /\ i <= n
        /\ p_exists (w n) = true /\ p_getsize (w n) = Some size0
        /\ p_open (w n) = Opened
        /\ ((Z.of_N size0 = prev /\ forall k, i <= k < n -> p_exists (w k) = false)
            \/ (exists m, i <= m < n
                  /\ p_exists (w m) = true /\ p_getsize (w m) = Some size0
                  /\ forall k, m < k < n -> p_exists (w k) = false))) as Hagain.
    { intros r -> Hr. apply IH in Hr as (n & size0 & Hp & Hn & He & Hs & Ho & Hprev).
      exists n, size0. repeat (split; [assumption || lia|]).
      right. destruct Hprev as [[Heq Habs]|(m & Hm & Hem & Hsm & Habs)].
      - apply N2Z.inj in Heq as ->. exists i. repeat split; auto; lia.
      - exists m. repeat split; auto; lia. }
    destruct (Z.eqb_spec (Z.of_N size) prev) as [Heq|Hne]; [|now apply Hagain].
    destruct (p_open (w i)) eqn:Hop;
      [|now apply Hagain|discriminate|discriminate].
    intros _. exists i, size. cbn. repeat (split; [assumption || lia|]).
    left. split; [exact Heq | intros k Hk; lia].
  - intros Hr. apply IH in Hr as (n & size & Hp & Hn & He & Hs & Ho & Hprev).
    exists n, size. repeat (split; [assumption || lia|]).
    destruct Hprev as [[Heq Habs]|(m & Hm & Hem & Hsm & Habs)].
    + left. split; [exact Heq|]. intros k Hk.
      destruct (decide (k = i)) as [->|Hne]; [exact Hex | apply Habs; lia].
    + right. exists m. repeat split; auto; lia.
Qed.

End stability_loop.

(** The loop as [on_created] runs it: [timeout=30], [interval=1], so that
    [elapsed_time] is the number of the poll. *)
Section stability_defaults.

Variables (w : nat -> poll) (file_path : string).

Lemma loop_step fuel prev i :
  i < 30 ->
  wait_loop (S fuel) w file_path 30 1 prev (Z.of_nat i) i =
  if negb (p_exists (w i))
  then wait_loop fuel w file_path 30 1 prev (Z.of_nat (S i)) (S i)
  else
    match p_getsize (w i) with
    | None =>
        {| verdict := Raise GetsizeOSError; polls := S i;
           elapsed := Z.of_nat i; printed := [] |}
    | Some size =>
        if (Z.of_N size =? prev)%Z then
          match p_open (w i) with
          | Opened =>
              {| verdict := Return true; polls := S i;
                 elapsed := Z.of_nat i; printed := [] |}
          | PermissionError =>
              wait_loop fuel w file_path 30 1 (Z.of_N size) (Z.of_nat (S i)) (S i)
          | OpenFails =>
              {| verdict := Raise OpenOSError; polls := S i;
                 elapsed := Z.of_nat i; printed := [] |}
          | OpenBlocks =>
              {| verdict := Blocked; polls := S i;
                 elapsed := Z.of_nat i; printed := [] |}
          end
        else wait_loop fuel w file_path 30 1 (Z.of_N size) (Z.of_nat (S i)) (S i)
    end.
Proof.
  intros Hi.  cbn [wait_loop].
  destruct (Z.ltb_spec (Z.of_nat i) 30); [|lia].
  replace (Z.of_nat i + 1)%Z with (Z.of_nat (S i)) by lia. reflexivity.
Qed.


(** Polls that find the path absent only pass the time. *)
Lemma loop_absent fuel prev i n :
  i <= n -> n <= 30 ->
  (forall k, i <= k < n -> p_exists (w k) = false) ->
  wait_loop (n - i + fuel) w file_path 30 1 prev (Z.of_nat i) i
  = wait_loop fuel w file_path 30 1 prev (Z.of_nat n) n.
Proof.
  intros Hin Hn Habs. remember (n - i) as d eqn:Hd.
  revert i Hin Habs Hd. induction d as [|d IH]; intros i Hin Habs Hd.
  - now replace i with n by lia.
  - cbn [Nat.add]. rewrite loop_step by lia.
    rewrite (Habs i) by lia. cbn [negb].
    apply IH; [lia | | lia]. intros k Hk. apply Habs. lia.
Qed.

(** From poll [a] on the path is present; its size changes at every
    poll up to [n], then stays: stability is declared at the poll after
    [n], the first to see the size repeated. *)
Lemma loop_growth (size : nat -> N) a n fuel prev i :
  S n < 30 ->
  (forall k, a <= k <= S n ->
     p_exists (w k) = true /\ p_getsize (w k) = Some (size k)) ->
  (forall k, a <= k < n -> size k <> size (S k)) ->
  size (S n) = size n ->
  p_open (w (S n)) = Opened ->
  a <= i <= n -> Z.of_N (size i) <> prev -> S n - i < fuel ->
  wait_loop fuel w file_path 30 1 prev (Z.of_nat i) i =
  {| verdict := Return true; polls := S (S n);
     elapsed := Z.of_nat (S n); printed := [] |}.
Proof.
  intros Hn Hsample Hgrow Hflat Hopen.
  revert prev i. induction fuel as [|fuel IH]; intros prev i Hi Hprev Hfuel; [lia|].
  rewrite loop_step by lia.
  destruct (Hsample i ltac:(lia)) as [-> ->]. cbn [negb].
  destruct (Z.eqb_spec (Z.of_N (size i)) prev) as [|_]; [contradiction|].
  destruct (decide (i = n)) as [->|Hne].
  - destruct fuel as [|fuel]; [lia|].
    rewrite loop_step by lia.
    destruct (Hsample (S n) ltac:(lia)) as [-> ->]. cbn [negb].
    rewrite Hflat, Z.eqb_refl, Hopen. reflexivity.
  - apply IH; [lia | | lia].
    intros Heq. apply N2Z.inj in Heq. apply (Hgrow i); [lia | congruence].
Qed.


End stability_defaults.

Section stability_claims.

Variables (w : nat -> poll) (file_path : string).

Lemma wait_for_download_unfold :
  wait_for_download w file_path
  = wait_loop 31 w file_path 30 1 (-1) (Z.of_nat 0) 0.
Proof. reflexivity. Qed.

(** Absent for the first [a] polls, then present with a size that
    changes until poll [n] and stays at the next. *)
Lemma wait_for_download_growth (size : nat -> N) a n :
  n + 2 <= 30 -> a <= n ->
  (forall k, k < a -> p_exists (w k) = false) ->
  (forall k, a <= k <= S n ->
     p_exists (w k) = true /\ p_getsize (w k) = Some (size k)) ->
  (forall k, a <= k < n -> size k <> size (S k)) ->
  size (S n) = size n ->
  p_open (w (S n)) = Opened ->
  wait_for_download w file_path =
  {| verdict := Return true; polls := n + 2;
     elapsed := Z.of_nat (n + 1); printed := [] |}.
Proof.
  intros Hn Han Habs Hsample Hgrow Hflat Hopen.
  rewrite wait_for_download_unfold.
  replace 31 with (a - 0 + (31 - a)) by lia.
  rewrite loop_absent; [| lia | lia | intros k Hk; apply Habs; lia].
  replace (n + 2) with (S (S n)) by lia. replace (n + 1) with (S n) by lia.
  apply (loop_growth w file_path size a n); auto; lia.
Qed.

(** C2.  The check is never satisfied by one size sample: a verdict of
    stability is given at a poll [n] that found the path present,
    readable and of the size that an earlier poll [m] found, with
    nothing but polls of an absent path between the two; so at the
    second poll at the earliest, whatever the first size, zero included.
    A file whose size is the same from the first poll is declared
    stable at the second poll.  A file that grows for [n] intervals and
    then keeps its size is declared stable at poll [n + 2], provided
    that poll is within the 30 of the timeout. *)
Theorem stable_after_two_equal_samples :
  (verdict (wait_for_download w file_path) = Return true ->
   exists m n size,
     m < n /\ polls (wait_for_download w file_path) = S n
     /\ p_exists (w m) = true /\ p_getsize (w m) = Some size
     /\ p_exists (w n) = true /\ p_getsize (w n) = Some size
     /\ p_open (w n) = Opened
     /\ forall k, m < k < n -> p_exists (w k) = false)
  /\ (forall size : N,
        (forall k, k <= 1 ->
           p_exists (w k) = true /\ p_getsize (w k) = Some size) ->
        p_open (w 1) = Opened ->
        wait_for_download w file_path =
        {| verdict := Return true; polls := 2; elapsed := 1; printed := [] |})
  /\ (forall (size : nat -> N) n,
        n + 2 <= 30 ->
        (forall k, k <= S n ->
           p_exists (w k) = true /\ p_getsize (w k) = Some (size k)) ->
        (forall k, k < n -> (size k < size (S k))%N) ->
        size (S n) = size n ->
        p_open (w (S n)) = Opened ->
        wait_for_download w file_path =
        {| verdict := Return true; polls := n + 2;
           elapsed := Z.of_nat (n + 1); printed := [] |}).
Proof.
  split; [|split].
  - rewrite wait_for_download_unfold. generalize 31. intros fuel Hr.
    apply wait_loop_stable in Hr as (n & size & Hp & _ & Hen & Hsn & Hon & Hprev).
    destruct Hprev as [[Heq _]|(m & Hm & Hem & Hsm & Habs)]; [lia|].
    exists m, n, size. split; [lia|]. split; [exact Hp|]. auto 10.
  - intros size Hsample Hopen.
    apply (wait_for_download_growth (fun _ => size) 0 0); auto; try lia.
    intros k Hk. apply Hsample. lia.
  - intros size n Hn Hsample Hgrow Hflat Hopen.
    apply (wait_for_download_growth size 0 n); auto; try lia.
    + intros k Hk. apply Hsample. lia.
    + intros k Hk. specialize (Hgrow k ltac:(lia)). lia.
Qed.

End stability_claims.

Lemma stable_after_two_equal_samples_witness :
  wait_for_download
    (fun _ => {| p_exists := true; p_getsize := Some 0%N; p_open := Opened |})
    "/watch/[invoice] march.pdf"
  = {| verdict := Return true; polls := 2; elapsed := 1; printed := [] |}
  /\ wait_for_download
       (fun k => {| p_exists := true;
                    p_getsize := Some (N.of_nat (Nat.min k 3));
                    p_open := Opened |})
       "/watch/[invoice] march.pdf"
     = {| verdict := Return true; polls := 3 + 2;
          elapsed := Z.of_nat (3 + 1); printed := [] |}.
Proof.
  split.
  - destruct (stable_after_two_equal_samples
                (fun _ => {| p_exists := true; p_getsize := Some 0%N;
                             p_open := Opened |})
                "/watch/[invoice] march.pdf") as (_ & Hsame & _).
    apply (Hsame 0%N); [|reflexivity].
    intros k Hk. split; reflexivity.
  - destruct (stable_after_two_equal_samples
                (fun k => {| p_exists := true;
                             p_getsize := Some (N.of_nat (Nat.min k 3));
                             p_open := Opened |})
                "/watch/[invoice] march.pdf") as (_ & _ & Hgrow).
    apply (Hgrow (fun k => N.of_nat (Nat.min k 3)) 3); [lia | | | reflexivity..].
    + intros k Hk. split; reflexivity.
    + intros k Hk. lia.
Defined.

Section stability_exits.

Variables (w : nat -> poll) (file_path : string).

(** The ways the check ends, for a positive interval and fuel for one
    test more than [max_polls]. *)
Lemma wait_for_download_fuel_ends fuel timeout interval :
  (0 < interval)%Z -> max_polls timeout interval < fuel ->
  polls (wait_for_download_fuel fuel w file_path timeout interval)
  <= max_polls timeout interval
  /\ ((verdict (wait_for_download_fuel fuel w file_path timeout interval)
       = Return true
       /\ printed (wait_for_download_fuel fuel w file_path timeout interval) = [])
      \/ (exists e,
            verdict (wait_for_download_fuel fuel w file_path timeout interval)
            = Raise e
            /\ printed (wait_for_download_fuel fuel w file_path timeout interval)
               = [])
      \/ (verdict (wait_for_download_fuel fuel w file_path timeout interval)
          = Blocked
          /\ printed (wait_for_download_fuel fuel w file_path timeout interval)
             = [])
      \/ (verdict (wait_for_download_fuel fuel w file_path timeout interval)
          = Return false
          /\ polls (wait_for_download_fuel fuel w file_path timeout interval)
             = max_polls timeout interval
          /\ elapsed (wait_for_download_fuel fuel w file_path timeout interval)
             = (Z.of_nat (max_polls timeout interval) * interval)%Z
          /\ printed (wait_for_download_fuel fuel w file_path timeout interval)
             = [timeout_line file_path])).
Proof.
  intros Hpos Hfuel.
  exact (wait_loop_ends w file_path timeout interval fuel (-1) 0 Hpos
           ltac:(lia) ltac:(lia)).
Qed.


Lemma wait_for_download_ends :
  polls (wait_for_download w file_path) <= 30
  /\ ((verdict (wait_for_download w file_path) = Return true
       /\ printed (wait_for_download w file_path) = [])
      \/ (exists e,
            verdict (wait_for_download w file_path) = Raise e
            /\ printed (wait_for_download w file_path) = [])
      \/ (verdict (wait_for_download w file_path) = Blocked
          /\ printed (wait_for_download w file_path) = [])
      \/ (verdict (wait_for_download w file_path) = Return false
          /\ polls (wait_for_download w file_path) = 30
          /\ elapsed (wait_for_download w file_path) = 30%Z
          /\ printed (wait_for_download w file_path) = [timeout_line file_path])).
Proof.
  exact (wait_for_download_fuel_ends 31 30 1 ltac:(lia) ltac:(cbv; lia)).
Qed.

(** What [on_created] does when the check does not end in stability. *)
Lemma on_created_not_stable sorting_rules fault during_delay fs ev r :
  is_directory ev = false ->
  verdict (wait_for_download w (src_path ev)) = r ->
  r <> Return true ->
  on_created sorting_rules w fault during_delay fs ev =
  {| fs_after := fs;
     outcome := match r with
                | Return _ => Return tt
                | Raise e => Raise e
                | Diverge => Diverge
                | Blocked => Blocked
                end;
     output := printed (wait_for_download w (src_path ev)) |}.
Proof.
  intros Hdir Hr Hne. unfold on_created. rewrite Hdir. cbv zeta. rewrite Hr.
  destruct r as [[|]|e| |]; [contradiction | reflexivity..].
Qed.

End stability_exits.




Section transient_errors.

Variables (w : nat -> poll) (file_path : string).




End transient_errors.



(** ** The move *)

Section move_executor.

Implicit Types (fs : filesystem) (src dst : string) (fault : move_fault).

(** A move that raises leaves its source as it was. *)
Lemma shutil_move_raise fault fs src dst fs' e :
  shutil_move fault fs src dst = (fs', Raise e) -> fs' !! src = fs !! src.
Proof.
  unfold shutil_move. intros H.
  repeat case_match; simplify_eq; try done.
  all: rewrite lookup_insert_ne; [done|].
  all: match goal with
       | H : String.eqb _ _ = false |- _ => apply String.eqb_neq in H
       end; congruence.
Qed.

(** A move that returns has taken the source away and put it at the
    destination, unless source and destination are one path. *)
Lemma shutil_move_return fault fs src dst fs' :
  shutil_move fault fs src dst = (fs', Return tt) -> src <> dst ->
  fs' !! src = None
  /\ fs' !! real_destination fs src dst = fs !! src
  /\ is_Some (fs !! src).
Proof.
  unfold shutil_move, real_destination. intros H Hne.
  destruct (String.eqb_spec src dst) as [|_]; [contradiction|].
  rewrite andb_false_r in H.
  assert (forall real,
    (path_isdir fs dst && path_exists fs real = true -> False) ->
    (fs !! src <> None -> src <> real) ->
    (if path_isdir fs dst && path_exists fs real
     then (fs, Raise DestinationExists)
     else
       match fs !! src with
       | None => (fs, Raise FileNotFoundError)
       | Some n =>
           match n, fs !! real with
           | Dir, Some (File _) => (fs, Raise FileExistsError)
           | _, _ =>
               match fault with
               | NoFault => (<[real := n]> (delete src fs), Return tt)
               | CrossVolume =>
                   if String.eqb src real then (fs, Raise SameFileError)
                   else (<[real := n]> (delete src fs), Return tt)
               | CopyFails written =>
                   if String.eqb src real then (fs, Raise SameFileError)
                   else (<[real := partial written n]> fs, Raise NoSpaceError)
               | AccessDenied => (fs, Raise MovePermissionError)
               | UnlinkRefused =>
                   if String.eqb src real then (fs, Raise SameFileError)
                   else (<[real := n]> fs, Raise MovePermissionError)
               end
           end
       end) = (fs', Return tt) ->
    fs' !! src = None /\ fs' !! real = fs !! src /\ is_Some (fs !! src)) as Hcase.
  { intros real Hfree Hreal Hmove.
    destruct (path_isdir fs dst && path_exists fs real); [discriminate|].
    destruct (fs !! src) as [n|] eqn:Hsrc; [|discriminate].
    specialize (Hreal ltac:(discriminate)).
    assert (fs' = <[real := n]> (delete src fs)) as ->.
    { apply String.eqb_neq in Hreal.
      destruct n, (fs !! real) as [[]|], fault; rewrite ?Hreal in Hmove;
        congruence. }
    rewrite lookup_insert_ne, lookup_delete_eq, lookup_insert_eq by congruence.
    eauto. }
  destruct (path_isdir fs dst) eqn:Hdir; cbn [andb] in *.
  - apply Hcase; [| | exact H].
    + intros Hex. rewrite Hex in H. discriminate.
    + intros Hsrc Heq. rewrite <- Heq in H. unfold path_exists in H.
      destruct (fs !! src); [discriminate | contradiction].
  - apply Hcase; [discriminate | auto | exact H].
Qed.

Lemma shutil_move_ends fault fs src dst :
  (shutil_move fault fs src dst).2 <> Diverge.
Proof. unfold shutil_move. repeat case_match; discriminate. Qed.

End move_executor.

Section move_file_facts.

Variables (fault : move_fault) (during_delay : filesystem -> filesystem)
  (fs : filesystem) (file_path destination_folder : string).

(** The resolver always answers, with a path that is free. *)
Lemma get_unique_filename_total file_name :
  exists new_path,
    get_unique_filename fs destination_folder file_name = Some new_path
    /\ path_exists fs new_path = false.
Proof.
  destruct (tries_first_free fs destination_folder file_name)
    as (k & _ & Hfree & Hocc).
  exists (tries destination_folder file_name k).
  split; [now apply get_unique_filename_first_free | exact Hfree].
Qed.

Lemma get_unique_filename_free file_name new_path :
  get_unique_filename fs destination_folder file_name = Some new_path ->
  path_exists fs new_path = false.
Proof.
  destruct (get_unique_filename_total file_name) as (p & -> & Hfree).
  now intros [= <-].
Qed.

(** The destination is resolved on entry, before the delay, and handed
    to one call of [shutil.move]. *)
Lemma move_file_resolved new_path :
  path_exists fs destination_folder = true ->
  get_unique_filename fs destination_folder (OsPath.basename file_path)
  = Some new_path ->
  move_file fault during_delay fs file_path destination_folder
  = shutil_move fault (during_delay fs) file_path new_path.
Proof. intros Hdest Hget. unfold move_file. now rewrite Hdest, Hget. Qed.

Lemma source_is_not_resolved new_path :
  is_Some (fs !! file_path) ->
  get_unique_filename fs destination_folder (OsPath.basename file_path)
  = Some new_path ->
  file_path <> new_path.
Proof.
  intros [n Hsrc] Hget ->. apply get_unique_filename_free in Hget.
  unfold path_exists in Hget. now rewrite Hsrc in Hget.
Qed.

End move_file_facts.

(** C6, as the code has it.  [move_file] calls [shutil.move] once and
    handles nothing.  For a source that exists when the method is entered
    and a destination folder that exists: when the call returns, the
    source is gone from its path and its node, as the delay left it, is
    at the place [shutil.move] chose; when the call raises, the error
    leaves [move_file] and the source is as the delay left it; the call
    always ends.  Nothing is cleaned up: when the copy across volumes
    stops after [written] characters, the error is raised and the
    resolved path holds the part that was written. *)
Theorem move_file_effects (fault : move_fault)
    (during_delay : filesystem -> filesystem) (fs : filesystem)
    (file_path destination_folder : string) (fs' : filesystem) (r : result unit) :
  move_file fault during_delay fs file_path destination_folder = (fs', r) ->
  path_exists fs destination_folder = true ->
  is_Some (fs !! file_path) ->
  (r = Return tt ->
     fs' !! file_path = None
     /\ is_Some (during_delay fs !! file_path)
     /\ exists new_path,
          get_unique_filename fs destination_folder (OsPath.basename file_path)
          = Some new_path
          /\ fs' !! real_destination (during_delay fs) file_path new_path
             = during_delay fs !! file_path)
  /\ (forall e, r = Raise e -> fs' !! file_path = during_delay fs !! file_path)
  /\ r <> Diverge
  /\ (forall written content new_path,
        fault = CopyFails written ->
        get_unique_filename fs destination_folder (OsPath.basename file_path)
        = Some new_path ->
        during_delay fs !! file_path = Some (File content) ->
        path_isdir (during_delay fs) new_path = false ->
        r = Raise NoSpaceError
        /\ fs' = <[new_path := File (Str.take written content)]> (during_delay fs)).
Proof.
  intros Hmove Hdest Hsrc.
  destruct (get_unique_filename_total fs destination_folder
              (OsPath.basename file_path)) as (new_path & Hget & Hfree).
  pose proof (source_is_not_resolved _ _ _ _ Hsrc Hget) as Hne.
  rewrite (move_file_resolved _ _ _ _ _ _ Hdest Hget) in Hmove.
  split; [|split; [|split]].
  - intros ->.
    apply shutil_move_return in Hmove as (Hgone & Hthere & Hwas); [|exact Hne].
    split; [exact Hgone|]. split; [exact Hwas|].
    exists new_path. split; [exact Hget | exact Hthere].
  - intros e ->. now apply shutil_move_raise in Hmove.
  - intros ->.
    pose proof (shutil_move_ends fault (during_delay fs) file_path new_path) as Hends.
    now rewrite Hmove in Hends.
  - intros written content new_path' -> Hget' Hcontent Hdir.
    rewrite Hget in Hget'. injection Hget' as <-.
    unfold shutil_move in Hmove. rewrite Hdir, Hcontent in Hmove.
    cbn [andb] in Hmove. apply String.eqb_neq in Hne. rewrite Hne in Hmove.
    destruct (during_delay fs !! new_path) as [[]|];
      injection Hmove as <- <-; split; reflexivity.
Qed.

Lemma move_file_effects_witness :
  (move_file NoFault id one_arrival "/watch/[a] x.bin" "/dest").1
    !! "/watch/[a] x.bin" = None
  /\ (move_file (CopyFails 2) id one_arrival "/watch/[a] x.bin" "/dest").1
       !! "/watch/[a] x.bin" = id one_arrival !! "/watch/[a] x.bin".
Proof.
  split.
  - destruct (move_file_effects NoFault id one_arrival "/watch/[a] x.bin" "/dest"
                (move_file NoFault id one_arrival "/watch/[a] x.bin" "/dest").1
                (move_file NoFault id one_arrival "/watch/[a] x.bin" "/dest").2)
      as (Hreturn & _).
    + now destruct (move_file NoFault id one_arrival "/watch/[a] x.bin" "/dest").
    + vm_compute. reflexivity.
    + exists (File "abcdef"). vm_compute. reflexivity.
    + apply Hreturn. vm_compute. reflexivity.
  - destruct (move_file_effects (CopyFails 2) id one_arrival
                "/watch/[a] x.bin" "/dest"
                (move_file (CopyFails 2) id one_arrival
                   "/watch/[a] x.bin" "/dest").1
                (move_file (CopyFails 2) id one_arrival
                   "/watch/[a] x.bin" "/dest").2)
      as (_ & Hraise & _).
    + now destruct (move_file (CopyFails 2) id one_arrival
                      "/watch/[a] x.bin" "/dest").
    + vm_compute. reflexivity.
    + exists (File "abcdef"). vm_compute. reflexivity.
    + apply (Hraise NoSpaceError). vm_compute. reflexivity.
Defined.

(** C6 as worded has the destination cleaned up before the error is
    surfaced; the part that an interrupted copy wrote stays there. *)
Lemma partial_copy_counterexample :
  one_arrival !! "/dest/[a] x.bin" = None
  /\ (move_file (CopyFails 2) id one_arrival "/watch/[a] x.bin" "/dest").2
     = Raise NoSpaceError
  /\ (move_file (CopyFails 2) id one_arrival "/watch/[a] x.bin" "/dest").1
       !! "/dest/[a] x.bin" = Some (File "ab").
Proof. repeat split; vm_compute; reflexivity. Qed.

(** C7, as the code has it.  The destination is resolved once, when
    [move_file] is entered, and [shutil.move] is called once with it,
    whatever the delay brings: nothing is resolved again and nothing is
    retried.  When a regular file has taken the resolved path during the
    delay, the move replaces it: the call returns, the source is gone
    and its content is at the resolved path. *)
Theorem move_file_resolves_once (fault : move_fault)
    (during_delay : filesystem -> filesystem) (fs : filesystem)
    (file_path destination_folder new_path : string) :
  path_exists fs destination_folder = true ->
  get_unique_filename fs destination_folder (OsPath.basename file_path)
  = Some new_path ->
  move_file fault during_delay fs file_path destination_folder
  = shutil_move fault (during_delay fs) file_path new_path
  /\ (forall content occupant,
        during_delay fs !! file_path = Some (File content) ->
        during_delay fs !! new_path = Some (File occupant) ->
        file_path <> new_path ->
        fault = NoFault \/ fault = CrossVolume ->
        move_file fault during_delay fs file_path destination_folder
        = (<[new_path := File content]> (delete file_path (during_delay fs)),
           Return tt)).
Proof.
  intros Hdest Hget.
  pose proof (move_file_resolved fault during_delay fs file_path
                destination_folder new_path Hdest Hget) as Hmove.
  split; [exact Hmove|].
  intros content occupant Hsrc Hocc Hne Hfault. rewrite Hmove.
  unfold shutil_move, path_isdir. rewrite Hocc. cbn [andb]. rewrite Hsrc.
  apply String.eqb_neq in Hne.
  destruct Hfault as [-> | ->]; [reflexivity | now rewrite Hne].
Qed.

Lemma move_file_resolves_once_witness :
  move_file NoFault squat one_arrival "/watch/[a] x.bin" "/dest"
  = (<["/dest/[a] x.bin" := File "abcdef"]>
       (delete "/watch/[a] x.bin" (squat one_arrival)),
     Return tt).
Proof.
  destruct (move_file_resolves_once NoFault squat one_arrival
              "/watch/[a] x.bin" "/dest" "/dest/[a] x.bin") as (_ & Hreplace).
  - vm_compute. reflexivity.
  - vm_compute. reflexivity.
  - apply (Hreplace "abcdef" "other").
    + vm_compute. reflexivity.
    + vm_compute. reflexivity.
    + discriminate.
    + left. reflexivity.
Defined.

(** C7 as worded has a colliding move resolved again and retried, or
    reported as failed with the file left at its source.  Here the
    resolved path is taken during the delay: the move returns, the
    source is gone, the occupant is overwritten, and the name a second
    resolution would give is not used. *)
Lemma collision_race_counterexample :
  get_unique_filename one_arrival "/dest" "[a] x.bin" = Some "/dest/[a] x.bin"
  /\ squat one_arrival !! "/dest/[a] x.bin" = Some (File "other")
  /\ get_unique_filename (squat one_arrival) "/dest" "[a] x.bin"
     = Some "/dest/[a] x_1.bin"
  /\ (move_file NoFault squat one_arrival "/watch/[a] x.bin" "/dest").2
     = Return tt
  /\ (move_file NoFault squat one_arrival "/watch/[a] x.bin" "/dest").1
       !! "/watch/[a] x.bin" = None
  /\ (move_file NoFault squat one_arrival "/watch/[a] x.bin" "/dest").1
       !! "/dest/[a] x.bin" = Some (File "abcdef")
  /\ (move_file NoFault squat one_arrival "/watch/[a] x.bin" "/dest").1
       !! "/dest/[a] x_1.bin" = None.
Proof. repeat split; vm_compute; reflexivity. Qed.

(** ** The dispatcher *)

Section dispatcher.

Variables (sorting_rules : gmap string string) (w : nat -> poll)
  (fault : move_fault) (during_delay : filesystem -> filesystem)
  (fs : filesystem) (ev : event).

Lemma stable_prints_nothing file_path :
  verdict (wait_for_download w file_path) = Return true ->
  printed (wait_for_download w file_path) = [].
Proof.
  intros Hr.
  destruct (wait_for_download_ends w file_path)
    as (_ & [[_ Hp]|[(e & He & _)|[[Hb _]|(Hf & _)]]]);
    [exact Hp | congruence..].
Qed.

(** C4, as the code has it.  For the creation of a file that is
    declared stable: when the name has no tag, or the tag has no rule,
    or the destination folder of its rule does not exist, [on_created]
    returns with the file system as it found it, so the file is where it
    was and as it was; it prints nothing and returns nothing that tells
    the three cases apart. *)
Theorem on_created_skips :
  is_directory ev = false ->
  verdict (wait_for_download w (src_path ev)) = Return true ->
  extract_tag (OsPath.basename (src_path ev)) = None
  \/ (exists tag,
        extract_tag (OsPath.basename (src_path ev)) = Some tag
        /\ sorting_rules !! tag = None)
  \/ (exists tag destination_folder,
        extract_tag (OsPath.basename (src_path ev)) = Some tag
        /\ sorting_rules !! tag = Some destination_folder
        /\ path_exists fs destination_folder = false) ->
  on_created sorting_rules w fault during_delay fs ev
  = {| fs_after := fs; outcome := Return tt; output := [] |}.
Proof.
  intros Hdir Hstable Hskip.
  unfold on_created. rewrite Hdir. cbv zeta.
  rewrite Hstable, (stable_prints_nothing _ Hstable).
  destruct Hskip
    as [-> | [(tag & -> & Hrule) | (tag & dest & -> & Hrule & Hmissing)]].
  - reflexivity.
  - rewrite Hrule. now destruct (negb _).
  - rewrite Hrule. unfold move_file. rewrite Hmissing. cbn [negb].
    now destruct (negb _).
Qed.

End dispatcher.

Lemma on_created_skips_witness :
  on_created (<["[b]" := "/dest"]> ∅)
    (fun _ => {| p_exists := true; p_getsize := Some 6%N; p_open := Opened |})
    NoFault id one_arrival
    {| is_directory := false; src_path := "/watch/[a] x.bin" |}
  = {| fs_after := one_arrival; outcome := Return tt; output := [] |}.
Proof.
  apply on_created_skips.
  - reflexivity.
  - vm_compute. reflexivity.
  - right. left. exists "[a]". split; vm_compute; reflexivity.
Defined.

(** C4 as worded has a Skipped outcome emitted for each case.  A name
    without a tag, a tag without a rule and a rule whose folder is
    missing end alike: nothing printed, nothing returned. *)
Lemma skipped_outcome_counterexample :
  let stable :=
    fun _ : nat => {| p_exists := true; p_getsize := Some 6%N; p_open := Opened |} in
  let no_tag :=
    on_created (<["[a]" := "/dest"]> ∅) stable NoFault id one_arrival
      {| is_directory := false; src_path := "/watch/report.pdf" |} in
  let no_rule :=
    on_created (<["[b]" := "/dest"]> ∅) stable NoFault id one_arrival
      {| is_directory := false; src_path := "/watch/[a] x.bin" |} in
  let no_folder :=
    on_created (<["[a]" := "/missing"]> ∅) stable NoFault id one_arrival
      {| is_directory := false; src_path := "/watch/[a] x.bin" |} in
  (output no_tag = [] /\ outcome no_tag = Return tt)
  /\ (output no_rule = [] /\ outcome no_rule = Return tt)
  /\ (output no_folder = [] /\ outcome no_folder = Return tt).
Proof. cbv zeta. repeat split; vm_compute; reflexivity. Qed.

(** * Further properties *)

(** ** The tag extractor, continued *)

Section tag_shape.

Lemma lower_char_idem c : Str.lower_char (Str.lower_char c) = Str.lower_char c.
Proof. destruct c as [[] [] [] [] [] [] [] []]; reflexivity. Qed.

Lemma lower_idem s : Str.lower (Str.lower s) = Str.lower s.
Proof.
  induction s as [|c s IH]; [reflexivity|]. cbn [Str.lower].
  now rewrite lower_char_idem, IH.
Qed.

(** Lower-casing makes no character one of those the pattern looks
    for, and leaves those alone. *)
Lemma lower_char_keeps (c d : ascii) :
  d = "["%char \/ d = "]"%char \/ d = Str.LF ->
  Ascii.eqb (Str.lower_char c) d = Ascii.eqb c d.
Proof.
  intros [-> | [-> | ->]]; destruct c as [[] [] [] [] [] [] [] []]; reflexivity.
Qed.

(** What [.*?\]] matches is a body free of [']'] and of line feeds,
    with the bracket that follows it. *)
Lemma lazy_star_matched s m :
  Re.lazy_star Re.Dot closing s = Some m ->
  exists X rest,
    s = X +:+ String "]" rest /\ m = X +:+ "]"
    /\ Str.occurs "]" X = false /\ Str.occurs Str.LF X = false.
Proof.
  revert m. induction s as [|c s IH]; intros m; [discriminate|].
  cbn [Re.lazy_star]. destruct (Ascii.eqb c "]") eqn:Hc.
  - apply Ascii.eqb_eq in Hc as ->. intros [= <-].
    exists "", s. repeat split.
  - rewrite (closing_other _ _ Hc). cbn [Re.accepts].
    destruct (Ascii.eqb c Str.LF) eqn:Hl; cbn [negb]; [discriminate|].
    destruct (Re.lazy_star Re.Dot closing s) as [m'|]; [|discriminate].
    intros [= <-].
    destruct (IH m' eq_refl) as (X & rest & -> & -> & Hb & Hn).
    exists (String c X), rest. cbn [Str.occurs]. rewrite Hc, Hl.
    repeat split; assumption.
Qed.

Lemma lazy_star_lower s :
  Re.lazy_star Re.Dot closing (Str.lower s)
  = Str.lower <$> Re.lazy_star Re.Dot closing s.
Proof.
  induction s as [|c s IH]; [reflexivity|].
  cbn [Str.lower Re.lazy_star].
  destruct (Ascii.eqb c "]") eqn:Hc.
  - apply Ascii.eqb_eq in Hc as ->. reflexivity.
  - rewrite (closing_other c _ Hc), (closing_other (Str.lower_char c)).
    2: { rewrite lower_char_keeps; [exact Hc | auto]. }
    cbn [Re.accepts]. rewrite lower_char_keeps by auto.
    destruct (Ascii.eqb c Str.LF); cbn [negb]; [reflexivity|].
    rewrite IH. now destruct (Re.lazy_star Re.Dot closing s).
Qed.

(** The shape of every answer of [extract_tag]. *)
Lemma extract_tag_matched file_name tag :
  extract_tag file_name = Some tag ->
  exists X rest,
    file_name = "[" +:+ X +:+ "]" +:+ rest
    /\ Str.occurs "]" X = false /\ Str.occurs Str.LF X = false
    /\ tag = Str.lower ("[" +:+ X +:+ "]").
Proof.
  intros Htag. destruct file_name as [|c s]; [discriminate|].
  destruct (Ascii.ascii_dec c "[") as [->|Hc].
  - rewrite extract_tag_open in Htag.
    destruct (Re.lazy_star Re.Dot closing s) as [m|] eqn:Hm; [|discriminate].
    injection Htag as <-.
    apply lazy_star_matched in Hm as (X & rest & -> & -> & Hb & Hn).
    exists X, rest. repeat split; assumption.
  - now rewrite extract_tag_not_open in Htag.
Qed.

Lemma extract_tag_normal file_name tag :
  extract_tag file_name = Some tag ->
  Str.lower tag = tag /\ Str.startswith "[" tag = true /\ tag <> "".
Proof.
  intros Htag.
  destruct (extract_tag_matched _ _ Htag) as (X & rest & _ & _ & _ & ->).
  split; [apply lower_idem|]. split; [reflexivity | discriminate].
Qed.

(** X1.  Whenever [extract_tag] answers, the name opens with a bracketed
    part [[X]] whose body holds no [']'] and no line feed, and the
    answer is that part in lower case: it opens with ['['], is not
    empty, and lower-casing leaves it as it is. *)
Theorem extract_tag_some (file_name tag : string) :
  extract_tag file_name = Some tag ->
  (exists X rest,
      file_name = "[" +:+ X +:+ "]" +:+ rest
      /\ Str.occurs "]" X = false /\ Str.occurs Str.LF X = false
      /\ tag = Str.lower ("[" +:+ X +:+ "]"))
  /\ Str.lower tag = tag
  /\ Str.startswith "[" tag = true
  /\ tag <> "".
Proof.
  intros Htag. split; [now apply extract_tag_matched|].
  now apply (extract_tag_normal file_name).
Qed.

Lemma extract_tag_some_witness :
  Str.lower "[invoice]" = "[invoice]" /\ Str.startswith "[" "[invoice]" = true.
Proof.
  destruct (extract_tag_some "[Invoice] march.pdf" "[invoice]" eq_refl)
    as (_ & Hlower & Hopen & _).
  split; assumption.
Defined.

(** X2.  The case of the letters of a name does not matter to its tag:
    the name and its lower-cased form have the same tag, and so have two
    names that differ in case only. *)
Theorem extract_tag_ignores_case (file_name : string) :
  extract_tag (Str.lower file_name) = extract_tag file_name
  /\ forall other,
       Str.lower other = Str.lower file_name ->
       extract_tag other = extract_tag file_name.
Proof.
  assert (forall n, extract_tag (Str.lower n) = extract_tag n) as Hlower.
  { intros [|c s]; [reflexivity|]. cbn [Str.lower].
    destruct (Ascii.ascii_dec c "[") as [->|Hc].
    - change (Str.lower_char "[") with "["%char.
      rewrite !extract_tag_open, lazy_star_lower.
      destruct (Re.lazy_star Re.Dot closing s) as [m|]; [|reflexivity].
      cbn. now rewrite lower_idem.
    - rewrite !extract_tag_not_open; [reflexivity | exact Hc |].
      intros Heq. apply Hc. apply Ascii.eqb_eq.
      rewrite <- (lower_char_keeps c "[") by auto. now apply Ascii.eqb_eq. }
  split; [apply Hlower|].
  intros other Heq. now rewrite <- (Hlower other), Heq, Hlower.
Qed.

Lemma extract_tag_ignores_case_witness :
  extract_tag "[INVOICE] March.PDF" = extract_tag "[invoice] march.pdf".
Proof.
  destruct (extract_tag_ignores_case "[invoice] march.pdf") as (_ & Hsame).
  apply Hsame. reflexivity.
Defined.

End tag_shape.

(** ** The destination resolver, continued *)

Section resolver_more.

Implicit Types (fs : filesystem) (b e p : string).

Lemma app_assoc_str s t u : (s +:+ t) +:+ u = s +:+ (t +:+ u).
Proof.
  induction s as [|a s IH]; [reflexivity|]. rewrite !app_cons. now f_equal.
Qed.

Lemma only_app c s t : Str.only c (s +:+ t) = Str.only c s && Str.only c t.
Proof.
  induction s as [|a s IH]; [reflexivity|]. rewrite app_cons. cbn [Str.only].
  rewrite IH. now rewrite andb_assoc.
Qed.

(** A string with a dot falls into what precedes its last dot and what
    follows it. *)
Lemma last_dot p :
  Str.occurs "." p = true ->
  exists b e, p = b +:+ "." +:+ e /\ Str.occurs "." e = false.
Proof.
  induction p as [|a p IH]; [discriminate|]. cbn [Str.occurs].
  destruct (Str.occurs "." p) eqn:Hp.
  - intros _. destruct (IH eq_refl) as (b & e & -> & He).
    exists (String a b), e. split; [reflexivity | exact He].
  - destruct (Ascii.eqb a ".") eqn:Ha; [|discriminate].
    apply Ascii.eqb_eq in Ha as ->. intros _. exists "", p. split; [reflexivity | exact Hp].
Qed.

(** The decimal numeral of a counter is made of digits. *)
Lemma pretty_go_avoids (c : ascii) (x : N) (s : string) :
  (forall d, Ascii.eqb (pretty_N_char d) c = false) ->
  Str.occurs c s = false -> Str.occurs c (pretty_N_go x s) = false.
Proof.
  intros Hc. revert s. induction (N.lt_wf_0 x) as [x _ IH]; intros s Hs.
  destruct (decide (x = 0%N)) as [->|Hx]; [now rewrite pretty_N_go_0|].
  rewrite pretty_N_go_step by lia. apply IH; [apply N.div_lt; lia|].
  cbn [Str.occurs]. now rewrite Hc, Hs.
Qed.

Lemma pretty_no_dot (k : nat) : Str.occurs "." (pretty k) = false.
Proof.
  unfold pretty, pretty_nat, pretty, pretty_N.
  case_decide; [reflexivity|]. apply pretty_go_avoids; [|reflexivity].
  intros d. unfold pretty_N_char. now repeat case_match.
Qed.

(** The numbered name splits where the name does: the counter joins the
    base and the extension is kept. *)
Lemma splitext_numbered file_name k :
  Str.occurs "/" file_name = false ->
  OsPath.splitext
    (numbered (OsPath.splitext file_name).1 k (OsPath.splitext file_name).2)
  = ((OsPath.splitext file_name).1 +:+ "_" +:+ pretty k,
     (OsPath.splitext file_name).2).
Proof.
  intros Hs. destruct (Str.occurs "." file_name) eqn:Hd.
  - destruct (last_dot _ Hd) as (b & e & -> & He).
    pose proof Hs as Hs'. rewrite !occurs_app in Hs'.
    apply orb_false_iff in Hs' as [Hsb Hse].
    apply orb_false_iff in Hse as [_ Hse].
    rewrite (splitext_last_dot _ _ Hs He).
    destruct (Str.only "." b) eqn:Hb; cbn [fst snd]; unfold numbered.
    + rewrite app_empty_r.
      replace ((b +:+ "." +:+ e) +:+ "_" +:+ pretty k)
        with (b +:+ "." +:+ (e +:+ "_" +:+ pretty k)).
      2: { now rewrite !app_assoc_str. }
      rewrite splitext_last_dot, Hb; [reflexivity | |].
      * rewrite !occurs_app, Hsb, Hse, pretty_no_slash. reflexivity.
      * rewrite !occurs_app, He, pretty_no_dot. reflexivity.
    + replace (b +:+ "_" +:+ pretty k +:+ "." +:+ e)
        with ((b +:+ "_" +:+ pretty k) +:+ "." +:+ e).
      2: { now rewrite !app_assoc_str. }
      rewrite splitext_last_dot, only_app, Hb; [reflexivity | | exact He].
      rewrite !occurs_app, Hsb, Hse, pretty_no_slash. reflexivity.
  - rewrite (splitext_no_dot _ Hd). cbn [fst snd]. unfold numbered.
    rewrite app_empty_r. apply splitext_no_dot.
    rewrite !occurs_app, Hd, pretty_no_dot. reflexivity.
Qed.

(** X3.  The path that [get_unique_filename] returns for a name without
    separators is the directory joined to a name without separators
    that has the extension of the name asked for: the name itself, or
    its base with [_k] added, [k >= 1], before the same extension. *)
Theorem resolved_name_keeps_extension (fs : filesystem)
    (destination file_name new_path : string) :
  Str.occurs "/" file_name = false ->
  get_unique_filename fs destination file_name = Some new_path ->
  exists name,
    new_path = OsPath.join destination name
    /\ Str.occurs "/" name = false
    /\ (OsPath.splitext name).2 = (OsPath.splitext file_name).2
    /\ (name = file_name
        \/ exists k,
             1 <= k
             /\ (OsPath.splitext name).1
                = (OsPath.splitext file_name).1 +:+ "_" +:+ pretty k).
Proof.
  intros Hs Hget.
  destruct (tries_first_free fs destination file_name) as (k & _ & Hfree & Hocc).
  rewrite (get_unique_filename_first_free _ _ _ _ Hfree Hocc) in Hget.
  injection Hget as <-. destruct k as [|k].
  - exists file_name. repeat split; auto.
  - exists (numbered (OsPath.splitext file_name).1 (S k)
              (OsPath.splitext file_name).2).
    split; [reflexivity|]. rewrite (splitext_numbered _ _ Hs). cbn [fst snd].
    split; [|split; [reflexivity|]].
    + pose proof (splitext_app file_name) as Happ.
      rewrite <- Happ, occurs_app in Hs. apply orb_false_iff in Hs as [Hb He].
      unfold numbered. rewrite !occurs_app, Hb, He, pretty_no_slash. reflexivity.
    + right. exists (S k). split; [lia | reflexivity].
Qed.

Lemma resolved_name_keeps_extension_witness :
  exists name,
    "/dest/archive.tar_1.gz" = OsPath.join "/dest" name
    /\ Str.occurs "/" name = false
    /\ (OsPath.splitext name).2 = (OsPath.splitext "archive.tar.gz").2
    /\ (name = "archive.tar.gz"
        \/ exists k,
             1 <= k
             /\ (OsPath.splitext name).1
                = (OsPath.splitext "archive.tar.gz").1 +:+ "_" +:+ pretty k).
Proof.
  apply (resolved_name_keeps_extension
           (<["/dest/archive.tar.gz" := File "a"]> ∅)).
  - reflexivity.
  - vm_compute. reflexivity.
Defined.

(** X4.  Once the path that was resolved is taken, the next resolution
    of the same name gives another path, further along the sequence of
    tries; it is the next try when that one is free. *)
Theorem resolution_moves_on (fs : filesystem)
    (destination file_name new_path : string) (n : node) :
  get_unique_filename fs destination file_name = Some new_path ->
  exists k k',
    new_path = tries destination file_name k
    /\ k < k'
    /\ get_unique_filename (<[new_path := n]> fs) destination file_name
       = Some (tries destination file_name k')
    /\ tries destination file_name k' <> new_path
    /\ (path_exists fs (tries destination file_name (S k)) = false ->
        tries destination file_name (S k) <> new_path ->
        k' = S k).
Proof.
  intros Hget.
  destruct (tries_first_free fs destination file_name) as (k & _ & Hfree & Hocc).
  rewrite (get_unique_filename_first_free _ _ _ _ Hfree Hocc) in Hget.
  injection Hget as <-.
  set (fs' := <[tries destination file_name k := n]> fs).
  assert (forall j, j <= k -> path_exists fs' (tries destination file_name j) = true)
    as Hocc'.
  { intros j Hj. unfold path_exists, fs'.
    destruct (decide (tries destination file_name k = tries destination file_name j))
      as [->|Hne].
    - now rewrite lookup_insert_eq.
    - rewrite lookup_insert_ne by exact Hne.
      assert (j < k) as Hlt.
      { destruct (decide (j = k)) as [->|]; [contradiction | lia]. }
      specialize (Hocc j Hlt). unfold path_exists in Hocc.
      now destruct (fs !! _). }
  destruct (tries_first_free fs' destination file_name) as (k' & _ & Hfree' & Hocc'').
  assert (k < k') as Hlt.
  { destruct (decide (k < k')) as [|Hge]; [assumption|].
    rewrite Hocc' in Hfree' by lia. discriminate. }
  exists k, k'. split; [reflexivity|]. split; [exact Hlt|].
  split; [now apply get_unique_filename_first_free|].
  split.
  - intros Heq. rewrite Heq, Hocc' in Hfree' by lia. discriminate.
  - intros Hnext Hne.
    destruct (decide (k' = S k)) as [|Hne']; [assumption|].
    specialize (Hocc'' (S k) ltac:(lia)).
    unfold path_exists, fs' in Hocc''.
    rewrite lookup_insert_ne in Hocc'' by (intros Heq; now apply Hne).
    unfold path_exists in Hnext. destruct (fs !! _); discriminate.
Qed.

Lemma resolution_moves_on_witness :
  exists k k',
    "/dest/march.pdf" = tries "/dest" "march.pdf" k
    /\ k < k'
    /\ get_unique_filename (<["/dest/march.pdf" := File "x"]> (<["/dest" := Dir]> ∅))
         "/dest" "march.pdf"
       = Some (tries "/dest" "march.pdf" k')
    /\ tries "/dest" "march.pdf" k' <> "/dest/march.pdf"
    /\ (path_exists (<["/dest" := Dir]> ∅) (tries "/dest" "march.pdf" (S k)) = false ->
        tries "/dest" "march.pdf" (S k) <> "/dest/march.pdf" ->
        k' = S k).
Proof.
  apply (resolution_moves_on (<["/dest" := Dir]> ∅) "/dest" "march.pdf"
           "/dest/march.pdf" (File "x")).
  vm_compute. reflexivity.
Defined.

End resolver_more.

(** ** The stability detector, continued *)

Section locked_file.

Variables (w : nat -> poll) (file_path : string).




End locked_file.


(** ** The move, continued *)

Section move_more.

Implicit Types (fs : filesystem) (fault : move_fault).

(** A move that raises anything but the error of an interrupted copy
    has changed nothing. *)
Lemma shutil_move_unchanged fault fs src dst fs' e :
  shutil_move fault fs src dst = (fs', Raise e) ->
  (forall written, fault <> CopyFails written) -> fault <> UnlinkRefused ->
  fs' = fs.
Proof.
  unfold shutil_move. intros H Hcopy Hunlink.
  repeat case_match; simplify_eq; try reflexivity.
  all: now destruct (Hcopy _ eq_refl).
Qed.

(** A move that raises has changed no path but its destination. *)
Lemma shutil_move_frame fault fs src dst fs' e p :
  shutil_move fault fs src dst = (fs', Raise e) ->
  p <> real_destination fs src dst ->
  fs' !! p = fs !! p.
Proof.
  unfold shutil_move, real_destination. intros H Hp.
  repeat case_match; simplify_eq; try reflexivity.
  all: now rewrite lookup_insert_ne by congruence.
Qed.

(** A move without fault or interference, to the path resolved. *)
Lemma move_file_undisturbed fs file_path destination_folder new_path n :
  path_exists fs destination_folder = true ->
  fs !! file_path = Some n ->
  get_unique_filename fs destination_folder (OsPath.basename file_path)
  = Some new_path ->
  fs !! new_path = None
  /\ move_file NoFault id fs file_path destination_folder
     = (<[new_path := n]> (delete file_path fs), Return tt).
Proof.
  intros Hdest Hsrc Hget.
  pose proof (get_unique_filename_free _ _ _ _ Hget) as Hfree.
  assert (fs !! new_path = None) as Hnone.
  { unfold path_exists in Hfree. now destruct (fs !! new_path). }
  split; [exact Hnone|].
  rewrite (move_file_resolved _ _ _ _ _ _ Hdest Hget).
  assert (path_isdir fs new_path = false) as Hdir.
  { unfold path_isdir. now rewrite Hnone. }
  unfold shutil_move, id. rewrite Hdir. cbn [andb].
  rewrite Hsrc, Hnone. now destruct n.
Qed.

(** X6.  With no fault and nothing else at work during the delay,
    [move_file] into an existing folder takes the source to the path it
    resolved, which no file had, and changes nothing else: every other
    path holds what it held, so no file is overwritten.  The call
    returns. *)
Theorem move_file_quiet (fs : filesystem)
    (file_path destination_folder : string) (n : node) :
  path_exists fs destination_folder = true ->
  fs !! file_path = Some n ->
  exists new_path,
    get_unique_filename fs destination_folder (OsPath.basename file_path)
    = Some new_path
    /\ fs !! new_path = None
    /\ move_file NoFault id fs file_path destination_folder
       = (<[new_path := n]> (delete file_path fs), Return tt)
    /\ forall p,
         p <> file_path -> p <> new_path ->
         (<[new_path := n]> (delete file_path fs)) !! p = fs !! p.
Proof.
  intros Hdest Hsrc.
  destruct (get_unique_filename_total fs destination_folder
              (OsPath.basename file_path)) as (new_path & Hget & _).
  exists new_path. split; [exact Hget|].
  destruct (move_file_undisturbed _ _ _ _ _ Hdest Hsrc Hget) as (Hnone & Hmove).
  split; [exact Hnone|]. split; [exact Hmove|].
  intros p Hp Hp'. now rewrite lookup_insert_ne, lookup_delete_ne.
Qed.

Lemma move_file_quiet_witness :
  exists new_path,
    get_unique_filename one_arrival "/dest" (OsPath.basename "/watch/[a] x.bin")
    = Some new_path
    /\ one_arrival !! new_path = None
    /\ move_file NoFault id one_arrival "/watch/[a] x.bin" "/dest"
       = (<[new_path := File "abcdef"]> (delete "/watch/[a] x.bin" one_arrival),
          Return tt)
    /\ forall p,
         p <> "/watch/[a] x.bin" -> p <> new_path ->
         (<[new_path := File "abcdef"]> (delete "/watch/[a] x.bin" one_arrival))
           !! p = one_arrival !! p.
Proof.
  apply move_file_quiet; vm_compute; reflexivity.
Defined.

(** X7.  A move that fails leaves the source as the other processes
    left it during the delay and changes no path but the one the move
    was aimed at.  It changes nothing at all unless the copy was
    interrupted or the source could not be unlinked once the copy was
    made; when the unlinking is refused, the whole copy stays at the
    resolved path and the source stays where it was.  A source that went
    away during the delay is a case where nothing changes. *)
Theorem move_file_failure_frame (fault : move_fault)
    (during_delay : filesystem -> filesystem) (fs : filesystem)
    (file_path destination_folder : string) :
  (forall fs' e,
      move_file fault during_delay fs file_path destination_folder
      = (fs', Raise e) ->
      fs' !! file_path = during_delay fs !! file_path
      /\ (exists new_path,
            get_unique_filename fs destination_folder
              (OsPath.basename file_path) = Some new_path
            /\ forall p,
                 p <> real_destination (during_delay fs) file_path new_path ->
                 fs' !! p = during_delay fs !! p)
      /\ ((forall written, fault <> CopyFails written) ->
          fault <> UnlinkRefused -> fs' = during_delay fs))
  /\ (forall new_path content,
        fault = UnlinkRefused ->
        path_exists fs destination_folder = true ->
        get_unique_filename fs destination_folder (OsPath.basename file_path)
        = Some new_path ->
        during_delay fs !! file_path = Some (File content) ->
        path_isdir (during_delay fs) new_path = false ->
        file_path <> new_path ->
        move_file fault during_delay fs file_path destination_folder
        = (<[new_path := File content]> (during_delay fs),
           Raise MovePermissionError))
  /\ (path_exists fs destination_folder = true ->
      is_Some (fs !! file_path) ->
      during_delay fs !! file_path = None ->
      exists e,
        move_file fault during_delay fs file_path destination_folder
        = (during_delay fs, Raise e)).
Proof.
  split; [|split].
  - intros fs' e Hmove. unfold move_file in Hmove.
    destruct (negb (path_exists fs destination_folder)); [discriminate|].
    destruct (get_unique_filename fs destination_folder _) as [new_path|];
      [|discriminate].
    split; [now apply shutil_move_raise in Hmove|].
    split; [exists new_path; split; [reflexivity|];
            intros p Hp; now apply (shutil_move_frame _ _ _ _ _ _ _ Hmove)|].
    intros Hcopy Hunlink.
    now apply (shutil_move_unchanged _ _ _ _ _ _ Hmove).
  - intros new_path content -> Hdest Hget Hsrc Hdir Hne.
    rewrite (move_file_resolved _ _ _ _ _ _ Hdest Hget).
    unfold shutil_move. rewrite Hdir, Hsrc. cbn [andb].
    apply String.eqb_neq in Hne. rewrite Hne.
    now destruct (during_delay fs !! new_path) as [[]|].
  - intros Hdest Hsrc Hgone.
    destruct (get_unique_filename_total fs destination_folder
                (OsPath.basename file_path)) as (new_path & Hget & Hfree).
    pose proof (source_is_not_resolved _ _ _ _ Hsrc Hget) as Hne.
    rewrite (move_file_resolved _ _ _ _ _ _ Hdest Hget).
    unfold shutil_move. apply String.eqb_neq in Hne. rewrite Hne, andb_false_r.
    destruct (_ && _).
    + now exists DestinationExists.
    + rewrite Hgone. now exists FileNotFoundError.
Qed.

Lemma move_file_failure_frame_witness :
  (exists e,
     move_file NoFault (delete "/watch/[a] x.bin") one_arrival
       "/watch/[a] x.bin" "/dest"
     = (delete "/watch/[a] x.bin" one_arrival, Raise e))
  /\ move_file UnlinkRefused id one_arrival "/watch/[a] x.bin" "/dest"
     = (<["/dest/[a] x.bin" := File "abcdef"]> (id one_arrival),
        Raise MovePermissionError).
Proof.
  split.
  - destruct (move_file_failure_frame NoFault (delete "/watch/[a] x.bin")
                one_arrival "/watch/[a] x.bin" "/dest") as (_ & _ & Hgone).
    apply Hgone.
    + vm_compute. reflexivity.
    + exists (File "abcdef"). vm_compute. reflexivity.
    + apply lookup_delete_eq.
  - destruct (move_file_failure_frame UnlinkRefused id one_arrival
                "/watch/[a] x.bin" "/dest") as (_ & Hkept & _).
    apply Hkept.
    + reflexivity.
    + vm_compute. reflexivity.
    + vm_compute. reflexivity.
    + vm_compute. reflexivity.
    + vm_compute. reflexivity.
    + discriminate.
Defined.

End move_more.

(** ** The dispatcher, continued *)

Section dispatcher_more.

Variables (sorting_rules : gmap string string) (w : nat -> poll)
  (fault : move_fault) (during_delay : filesystem -> filesystem)
  (fs : filesystem) (ev : event).

(** [on_created] for a stable file whose tag has a rule. *)
Lemma on_created_ruled tag destination_folder :
  is_directory ev = false ->
  verdict (wait_for_download w (src_path ev)) = Return true ->
  extract_tag (OsPath.basename (src_path ev)) = Some tag ->
  sorting_rules !! tag = Some destination_folder ->
  on_created sorting_rules w fault during_delay fs ev
  = {| fs_after :=
         (move_file fault during_delay fs (src_path ev) destination_folder).1;
       outcome :=
         (move_file fault during_delay fs (src_path ev) destination_folder).2;
       output := [] |}.
Proof.
  intros Hdir Hstable Htag Hrule.
  unfold on_created. rewrite Hdir. cbv zeta.
  rewrite Hstable, (stable_prints_nothing _ _ Hstable), Htag, Hrule.
  destruct (extract_tag_normal _ _ Htag) as (_ & _ & Hne).
  apply String.eqb_neq in Hne. rewrite Hne. cbn [negb].
  now destruct (move_file _ _ _ _ _).
Qed.

(** X8.  A stable file whose tag has a rule, with the folder of the rule
    in place and no file of its name there, is moved into that folder
    under its own name, tag and all; the handler returns and prints
    nothing, and every other path is left as it was.  (No fault, nothing
    else at work during the delay.) *)
Theorem on_created_moves tag destination_folder (n : node) :
  is_directory ev = false ->
  verdict (wait_for_download w (src_path ev)) = Return true ->
  extract_tag (OsPath.basename (src_path ev)) = Some tag ->
  sorting_rules !! tag = Some destination_folder ->
  path_exists fs destination_folder = true ->
  fs !! src_path ev = Some n ->
  path_exists fs
    (OsPath.join destination_folder (OsPath.basename (src_path ev))) = false ->
  on_created sorting_rules w NoFault id fs ev
  = {| fs_after :=
         <[OsPath.join destination_folder (OsPath.basename (src_path ev)) := n]>
           (delete (src_path ev) fs);
       outcome := Return tt;
       output := [] |}.
Proof.
  intros Hdir Hstable Htag Hrule Hdest Hsrc Hfree.
  unfold on_created. rewrite Hdir. cbv zeta.
  rewrite Hstable, (stable_prints_nothing _ _ Hstable), Htag, Hrule.
  destruct (extract_tag_normal _ _ Htag) as (_ & _ & Hne).
  apply String.eqb_neq in Hne. rewrite Hne. cbn [negb].
  assert (get_unique_filename fs destination_folder
            (OsPath.basename (src_path ev))
          = Some (OsPath.join destination_folder
                    (OsPath.basename (src_path ev)))) as Hget.
  { apply (get_unique_filename_first_free fs destination_folder _ 0);
      [exact Hfree | intros j Hj; lia]. }
  destruct (move_file_undisturbed _ _ _ _ _ Hdest Hsrc Hget) as (_ & ->).
  reflexivity.
Qed.

(** X9.  [on_created] leaves the file system as it found it unless the
    event is for a file, the file was declared stable, its name has a
    tag, the tag has a rule and the folder of the rule exists; and then
    what changes is what [move_file] changes. *)
Theorem on_created_acts_only_on_a_rule :
  fs_after (on_created sorting_rules w fault during_delay fs ev) <> fs ->
  is_directory ev = false
  /\ verdict (wait_for_download w (src_path ev)) = Return true
  /\ exists tag destination_folder,
       extract_tag (OsPath.basename (src_path ev)) = Some tag
       /\ sorting_rules !! tag = Some destination_folder
       /\ path_exists fs destination_folder = true
       /\ fs_after (on_created sorting_rules w fault during_delay fs ev)
          = (move_file fault during_delay fs (src_path ev)
               destination_folder).1.
Proof.
  intros Hchanged.
  destruct (is_directory ev) eqn:Hdir.
  { exfalso. apply Hchanged. unfold on_created. now rewrite Hdir. }
  split; [reflexivity|].
  destruct (verdict (wait_for_download w (src_path ev)))
    as [[|]|e| |] eqn:Hstable.
  2-5: exfalso; apply Hchanged;
       now rewrite (on_created_not_stable w sorting_rules fault during_delay
                      fs ev _ Hdir Hstable).
  split; [reflexivity|].
  destruct (extract_tag (OsPath.basename (src_path ev))) as [tag|] eqn:Htag.
  2: { exfalso. apply Hchanged. unfold on_created.
       now rewrite Hdir, Hstable, Htag. }
  destruct (sorting_rules !! tag) as [destination_folder|] eqn:Hrule.
  2: { exfalso. apply Hchanged. unfold on_created.
       rewrite Hdir, Hstable, Htag, Hrule. now destruct (negb _). }
  rewrite (on_created_ruled _ _ Hdir Hstable Htag Hrule) in Hchanged |- *.
  cbn [fs_after] in Hchanged |- *.
  destruct (path_exists fs destination_folder) eqn:Hdest.
  2: { exfalso. apply Hchanged. unfold move_file. now rewrite Hdest. }
  exists tag, destination_folder. repeat split; auto.
Qed.

(** X10.  A rule whose key is not in lower case, or does not open with
    ['['], is never used: with rules of that kind only, [on_created]
    does what it does with no rules at all. *)
Theorem rules_out_of_reach :
  (forall key destination_folder,
      sorting_rules !! key = Some destination_folder ->
      Str.lower key <> key \/ Str.startswith "[" key = false) ->
  on_created sorting_rules w fault during_delay fs ev
  = on_created ∅ w fault during_delay fs ev.
Proof.
  intros Hdead. unfold on_created.
  destruct (is_directory ev); [reflexivity|]. cbv zeta.
  destruct (verdict _) as [[|]| | |]; try reflexivity.
  destruct (extract_tag _) as [tag|] eqn:Htag; [|reflexivity].
  destruct (negb _); [|reflexivity].
  rewrite lookup_empty.
  destruct (sorting_rules !! tag) as [destination_folder|] eqn:Hrule;
    [|reflexivity].
  destruct (extract_tag_normal _ _ Htag) as (Hlower & Hopen & _).
  destruct (Hdead _ _ Hrule) as [Hne | Hne]; [contradiction | congruence].
Qed.

End dispatcher_more.

Lemma on_created_moves_witness :
  on_created (<["[a]" := "/dest"]> ∅)
    (fun _ => {| p_exists := true; p_getsize := Some 6%N; p_open := Opened |})
    NoFault id one_arrival
    {| is_directory := false; src_path := "/watch/[a] x.bin" |}
  = {| fs_after :=
         <["/dest/[a] x.bin" := File "abcdef"]>
           (delete "/watch/[a] x.bin" one_arrival);
       outcome := Return tt;
       output := [] |}.
Proof.
  apply (on_created_moves (<["[a]" := "/dest"]> ∅) _ one_arrival
           {| is_directory := false; src_path := "/watch/[a] x.bin" |}
           "[a]" "/dest" (File "abcdef"));
    vm_compute; reflexivity.
Defined.

Lemma on_created_acts_only_on_a_rule_witness :
  verdict
    (wait_for_download
       (fun _ => {| p_exists := true; p_getsize := Some 6%N; p_open := Opened |})
       "/watch/[a] x.bin") = Return true.
Proof.
  destruct (on_created_acts_only_on_a_rule (<["[a]" := "/dest"]> ∅)
              (fun _ => {| p_exists := true; p_getsize := Some 6%N;
                           p_open := Opened |})
              NoFault id one_arrival
              {| is_directory := false; src_path := "/watch/[a] x.bin" |})
    as (_ & Hstable & _); [|exact Hstable].
  intros Heq. apply (f_equal (fun m => m !! "/watch/[a] x.bin")) in Heq.
  vm_compute in Heq. discriminate Heq.
Defined.

Lemma rules_out_of_reach_witness :
  on_created (<["[Invoice]" := "/dest"]> ∅)
    (fun _ => {| p_exists := true; p_getsize := Some 6%N; p_open := Opened |})
    NoFault id (<["/watch/[Invoice] x.pdf" := File "abc"]> (<["/dest" := Dir]> ∅))
    {| is_directory := false; src_path := "/watch/[Invoice] x.pdf" |}
  = on_created ∅
      (fun _ => {| p_exists := true; p_getsize := Some 6%N; p_open := Opened |})
      NoFault id (<["/watch/[Invoice] x.pdf" := File "abc"]> (<["/dest" := Dir]> ∅))
      {| is_directory := false; src_path := "/watch/[Invoice] x.pdf" |}.
Proof.
  apply rules_out_of_reach. intros key destination_folder Hrule.
  apply lookup_insert_Some in Hrule as [[<- _] | [_ Hrule]];
    [left; discriminate | now rewrite lookup_empty in Hrule].
Defined.

(** ** Two deliveries of one event *)

Section duplicate_events.

Variables (sorting_rules sorting_rules' : gmap string string)
  (w w' : nat -> poll) (fault fault' : move_fault)
  (during_delay during_delay' : filesystem -> filesystem)
  (fs : filesystem) (ev : event).


End duplicate_events.



(** ** White space and case *)

Section text_facts.

Implicit Types (s t : string) (c : ascii).

Lemma truthy_true s : Text.truthy s = true <-> s <> "".
Proof.
  unfold Text.truthy. destruct (String.eqb_spec s ""); split; try easy.
Qed.

Lemma lstrip_head s :
  Text.lstrip s = ""
  \/ exists c t, Text.lstrip s = String c t /\ Text.isspace c = false.
Proof.
  induction s as [|a s IH]; [now left|]. cbn [Text.lstrip].
  destruct (Text.isspace a) eqn:Ha; [exact IH | right; eauto].
Qed.

Lemma rstrip_cons c s :
  Text.rstrip (String c s)
  = match Text.rstrip s with
    | EmptyString => if Text.isspace c then EmptyString else String c EmptyString
    | t => String c t
    end.
Proof. reflexivity. Qed.

Lemma rstrip_idem s : Text.rstrip (Text.rstrip s) = Text.rstrip s.
Proof.
  induction s as [|a s IH]; [reflexivity|]. rewrite rstrip_cons.
  destruct (Text.rstrip s) as [|b t] eqn:Hs.
  - destruct (Text.isspace a) eqn:Ha; [reflexivity|].
    rewrite rstrip_cons. cbn [Text.rstrip]. now rewrite Ha.
  - rewrite rstrip_cons, IH. reflexivity.
Qed.

Lemma rstrip_head c t :
  Text.isspace c = false ->
  exists t', Text.rstrip (String c t) = String c t'.
Proof.
  intros Hc. rewrite rstrip_cons.
  destruct (Text.rstrip t); [rewrite Hc|]; eauto.
Qed.

(** Stripping twice is stripping once. *)
Lemma strip_idem s : Text.strip (Text.strip s) = Text.strip s.
Proof.
  unfold Text.strip.
  destruct (lstrip_head s) as [-> | (c & t & -> & Hc)]; [reflexivity|].
  destruct (rstrip_head c t Hc) as (t' & Heq). rewrite Heq.
  cbn [Text.lstrip]. rewrite Hc, <- Heq. apply rstrip_idem.
Qed.

Lemma isspace_lower c : Text.isspace (Str.lower_char c) = Text.isspace c.
Proof. destruct c as [[] [] [] [] [] [] [] []]; reflexivity. Qed.

Lemma lstrip_lower s : Text.lstrip (Str.lower s) = Str.lower (Text.lstrip s).
Proof.
  induction s as [|a s IH]; [reflexivity|]. cbn [Str.lower Text.lstrip].
  rewrite isspace_lower. now destruct (Text.isspace a).
Qed.

Lemma rstrip_lower s : Text.rstrip (Str.lower s) = Str.lower (Text.rstrip s).
Proof.
  induction s as [|a s IH]; [reflexivity|]. cbn [Str.lower].
  rewrite !rstrip_cons, IH, isspace_lower.
  destruct (Text.rstrip s); [now destruct (Text.isspace a) | reflexivity].
Qed.

Lemma strip_lower s : Text.strip (Str.lower s) = Str.lower (Text.strip s).
Proof. unfold Text.strip. now rewrite lstrip_lower, rstrip_lower. Qed.

(** What [add_tag] makes of the two entries. *)
Lemma entered_key_normal s :
  Str.lower (Text.strip s) <> "" -> normal_key (Str.lower (Text.strip s)).
Proof.
  intros Hne. split; [exact Hne|]. split; [apply lower_idem|].
  now rewrite strip_lower, strip_idem.
Qed.

Lemma entered_path_normal s :
  Text.strip s <> "" -> normal_path (Text.strip s).
Proof. intros Hne. split; [exact Hne | apply strip_idem]. Qed.

End text_facts.

(** ** The [dict] *)

Section dict_facts.

Implicit Types (d : Dict.dict) (k v : string).

Lemma dict_get_set d k v k' :
  Dict.get (Dict.set d k v) k' = if decide (k = k') then Some v else Dict.get d k'.
Proof.
  induction d as [|[k0 v0] d IH]; cbn [Dict.set Dict.get].
  - destruct (String.eqb_spec k k'); case_decide; congruence.
  - destruct (String.eqb_spec k0 k) as [->|Hne]; cbn [Dict.get].
    + destruct (String.eqb_spec k k'); case_decide; congruence.
    + destruct (String.eqb_spec k0 k'); [|exact IH].
      case_decide; congruence.
Qed.

Lemma dict_get_None d k : Dict.get d k = None <-> k ∉ d.*1.
Proof.
  induction d as [|[k0 v0] d IH]; cbn [Dict.get].
  - split; [intros _; apply not_elem_of_nil | reflexivity].
  - rewrite fmap_cons, not_elem_of_cons. cbn [fst].
    destruct (String.eqb_spec k0 k); [split; [discriminate | intros [? _]; congruence]|].
    rewrite IH. split; [intros ?; split; congruence | now intros [_ ?]].
Qed.

(** [d[k] = v] on the keys: a key that is there leaves them as they
    are, a new key is added at the end. *)
Lemma dict_set_keys d k v :
  (Dict.set d k v).*1 = if decide (k ∈ d.*1) then d.*1 else (d.*1 ++ [k])%list.
Proof.
  induction d as [|[k0 v0] d IH]; cbn [Dict.set].
  - case_decide as H; [now apply elem_of_nil in H | reflexivity].
  - rewrite !fmap_cons. cbn [fst].
    destruct (String.eqb_spec k0 k) as [->|Hne].
    + rewrite decide_True by apply list_elem_of_here. reflexivity.
    + rewrite fmap_cons, IH. cbn [fst].
      destruct (decide (k ∈ d.*1)) as [Hin|Hnin].
      * rewrite decide_True by now apply list_elem_of_further. reflexivity.
      * rewrite decide_False; [reflexivity|].
        rewrite elem_of_cons. intros [?|?]; congruence.
Qed.

Lemma dict_set_new d k v : k ∉ d.*1 -> Dict.set d k v = (d ++ [(k, v)])%list.
Proof.
  induction d as [|[k0 v0] d IH]; intros Hk; [reflexivity|].
  rewrite fmap_cons, not_elem_of_cons in Hk. destruct Hk as [Hne Hk].
  cbn [Dict.set fst] in *. destruct (String.eqb_spec k0 k); [congruence|].
  now rewrite IH.
Qed.

Lemma dict_set_NoDup d k v : NoDup d.*1 -> NoDup (Dict.set d k v).*1.
Proof.
  intros Hd. rewrite dict_set_keys. case_decide as Hin; [exact Hd|].
  apply NoDup_app. repeat split; [exact Hd | | apply NoDup_singleton].
  intros x Hx Hx'. apply list_elem_of_singleton in Hx'. congruence.
Qed.

(** [del d[k]] *)
Lemma dict_del_sublist d k d' : Dict.del d k = Some d' -> d' `sublist_of` d.
Proof.
  revert d'. induction d as [|[k0 v0] d IH]; intros d'; [discriminate|].
  cbn [Dict.del]. destruct (String.eqb k0 k).
  - intros [= <-]. now apply sublist_cons.
  - destruct (Dict.del d k) as [d''|]; [|discriminate].
    intros [= <-]. apply sublist_skip. now apply IH.
Qed.

Lemma dict_del_Some d k d' :
  NoDup d.*1 -> Dict.del d k = Some d' ->
  Dict.get d k <> None /\ Dict.get d' k = None
  /\ (forall k', k' <> k -> Dict.get d' k' = Dict.get d k')
  /\ NoDup d'.*1.
Proof.
  intros Hd Hdel. split; [|split; [|split]].
  - clear Hd. revert d' Hdel. induction d as [|[k0 v0] d IH]; intros d';
      [discriminate|].
    cbn [Dict.del Dict.get]. destruct (String.eqb k0 k); [discriminate|].
    destruct (Dict.del d k) as [d''|]; [|discriminate]. intros _. now apply (IH d'').
  - revert d' Hdel. induction d as [|[k0 v0] d IH]; intros d'; [discriminate|].
    rewrite fmap_cons in Hd. apply NoDup_cons in Hd as [Hk0 Hd]. cbn [fst] in Hk0.
    cbn [Dict.del]. destruct (String.eqb_spec k0 k) as [->|Hne].
    + intros [= <-]. now apply dict_get_None.
    + destruct (Dict.del d k) as [d''|]; [|discriminate].
      intros [= <-]. cbn [Dict.get].
      destruct (String.eqb_spec k0 k); [congruence|]. now apply IH.
  - clear Hd. revert d' Hdel. induction d as [|[k0 v0] d IH]; intros d';
      [discriminate|].
    cbn [Dict.del]. destruct (String.eqb_spec k0 k) as [->|Hne].
    + intros [= <-] k' Hk'. cbn [Dict.get].
      destruct (String.eqb_spec k k'); congruence.
    + destruct (Dict.del d k) as [d''|]; [|discriminate].
      intros [= <-] k' Hk'. cbn [Dict.get].
      destruct (String.eqb_spec k0 k'); [reflexivity | now apply IH].
  - apply (sublist_NoDup _ d.*1); [exact Hd|].
    apply fmap_sublist. now apply (dict_del_sublist d k).
Qed.

Lemma dict_del_None d k : Dict.del d k = None <-> Dict.get d k = None.
Proof.
  induction d as [|[k0 v0] d IH]; cbn [Dict.del Dict.get]; [easy|].
  destruct (String.eqb_spec k0 k); [easy|].
  destruct (Dict.del d k); split; try easy; intros H; apply IH in H; easy.
Qed.

(** The map that [on_created] consults answers as the [dict] does. *)
Lemma list_to_map_get d k :
  (list_to_map d : gmap string string) !! k = Dict.get d k.
Proof.
  induction d as [|[k0 v0] d IH]; [apply lookup_empty|].
  cbn [list_to_map foldr Dict.get]. cbn [fst snd uncurry]. 
  destruct (String.eqb_spec k0 k) as [->|Hne].
  - apply lookup_insert_eq.
  - rewrite lookup_insert_ne by exact Hne. exact IH.
Qed.

(** [json.load] gives back the [dict] that [json.dump] wrote. *)
Lemma dict_load_app d members :
  NoDup (d ++ members)%list.*1 ->
  foldl (fun d m => Dict.set d m.1 m.2) d members = (d ++ members)%list.
Proof.
  revert d. induction members as [|[k v] members IH]; intros d Hnd.
  - now rewrite app_nil_r.
  - cbn [foldl fst snd]. rewrite dict_set_new.
    + rewrite IH; rewrite <- app_assoc; [reflexivity | exact Hnd].
    + rewrite fmap_app in Hnd. apply NoDup_app in Hnd as (_ & Hdisj & _).
      intros Hin. apply (Hdisj k Hin). rewrite fmap_cons. apply list_elem_of_here.
Qed.

Lemma dict_load_id d : NoDup d.*1 -> Dict.load d = d.
Proof. intros Hnd. unfold Dict.load. now rewrite dict_load_app. Qed.

Lemma dict_load_NoDup members : NoDup (Dict.load members).*1.
Proof.
  unfold Dict.load.
  assert (forall d, NoDup d.*1 ->
            NoDup (foldl (fun d m => Dict.set d m.1 m.2) d members).*1) as H.
  { induction members as [|[k v] members IH]; intros d Hd; [exact Hd|].
    cbn [foldl]. apply IH. now apply dict_set_NoDup. }
  apply H. apply NoDup_nil_2.
Qed.

End dict_facts.

(** ** The editor of the rules *)

Section editor.

Import AutoSorterApp.

Implicit Types (a : app) (x : action) (xs : list action) (s : string).

Lemma lower_empty s : Str.lower s = "" <-> s = "".
Proof. destruct s; split; intros H; try reflexivity; discriminate H. Qed.

Lemma lstrip_blank s : Text.lstrip s = "" <-> blank s = true.
Proof.
  unfold blank. induction s as [|c s IH]; [easy|].
  cbn [Text.lstrip list_ascii_of_string forallb].
  destruct (Text.isspace c) eqn:Hc; [exact IH | easy].
Qed.

(** [s.strip()] is empty when [s] holds white space only, and only
    then. *)
Lemma strip_blank s : Text.strip s = "" <-> blank s = true.
Proof.
  rewrite <- lstrip_blank. unfold Text.strip.
  destruct (lstrip_head s) as [-> | (c & t & -> & Hc)]; [easy|].
  destruct (rstrip_head c t Hc) as (t' & ->). easy.
Qed.

Lemma strip_not_blank s : blank s = false -> Text.strip s <> "".
Proof. intros Hb Hs. apply strip_blank in Hs. congruence. Qed.

Lemma entered_truthy a :
  Text.truthy (entered_tag a) && Text.truthy (entered_path a)
  = negb (blank (tag_entry a)) && negb (blank (path_entry a)).
Proof.
  unfold entered_tag, entered_path. f_equal.
  - destruct (blank (tag_entry a)) eqn:Hb.
    + apply strip_blank in Hb. now rewrite Hb.
    + apply strip_not_blank in Hb. apply truthy_true.
      now rewrite lower_empty.
  - destruct (blank (path_entry a)) eqn:Hb.
    + apply strip_blank in Hb. now rewrite Hb.
    + apply strip_not_blank in Hb. now apply truthy_true.
Qed.

(** [add_tag] when both entries hold something. *)
Lemma add_tag_entered writing a :
  blank (tag_entry a) = false -> blank (path_entry a) = false ->
  add_tag writing a
  = match writing with
    | Written =>
        (refresh_table
           (with_config_file
              (Loadable
                 (Some (saved (with_sorting_rules
                                 (Dict.set (sorting_rules a) (entered_tag a)
                                    (entered_path a)) a))))
              (with_sorting_rules
                 (Dict.set (sorting_rules a) (entered_tag a) (entered_path a))
                 a)),
         None)
    | OpenRefused =>
        (with_sorting_rules
           (Dict.set (sorting_rules a) (entered_tag a) (entered_path a)) a,
         Some OSError)
    | WriteFails =>
        (with_config_file Torn
           (with_sorting_rules
              (Dict.set (sorting_rules a) (entered_tag a) (entered_path a))
              a),
         Some OSError)
    end.
Proof.
  intros Htag Hpath. unfold add_tag. cbv zeta.
  change (Str.lower (Text.strip (tag_entry a))) with (entered_tag a).
  change (Text.strip (path_entry a)) with (entered_path a).
  rewrite entered_truthy, Htag, Hpath. cbn [negb andb].
  unfold save_settings. now destruct writing.
Qed.

Lemma add_tag_rules writing a :
  blank (tag_entry a) = false -> blank (path_entry a) = false ->
  sorting_rules (add_tag writing a).1
  = Dict.set (sorting_rules a) (entered_tag a) (entered_path a).
Proof.
  intros Htag Hpath. rewrite add_tag_entered by assumption.
  now destruct writing.
Qed.

(** X11.  [add_tag] with something other than white space in both
    entries: the tag, stripped and lower-cased, is a key of the rules
    with the stripped path as its folder; every other key has the folder
    it had; a key that was there keeps its place and a new one goes to
    the end.  When the settings file is written the call returns, the
    file holds the new rules and the table shows them.  When the file
    cannot be opened the call raises with the rule already in the
    [dict], the table and the file as they were.  When the file is
    opened and the writing fails the call raises with the rule in the
    [dict] and the table as it was, and the file is left cut short:
    the application cannot be started on it. *)
Theorem add_tag_sets_rule (writing : write_outcome) a :
  blank (tag_entry a) = false ->
  blank (path_entry a) = false ->
  exists a',
    add_tag writing a
    = (a', match writing with Written => None | _ => Some OSError end)
    /\ normal_key (entered_tag a) /\ normal_path (entered_path a)
    /\ Dict.get (sorting_rules a') (entered_tag a) = Some (entered_path a)
    /\ (forall k,
          k <> entered_tag a ->
          Dict.get (sorting_rules a') k = Dict.get (sorting_rules a) k)
    /\ (sorting_rules a').*1
       = (if decide (entered_tag a ∈ (sorting_rules a).*1)
          then (sorting_rules a).*1
          else ((sorting_rules a).*1 ++ [entered_tag a])%list)
    /\ match writing with
       | Written =>
           tree a' = sorting_rules a'
           /\ config_file a' = Loadable (Some (saved a'))
       | OpenRefused =>
           tree a' = tree a /\ config_file a' = config_file a
       | WriteFails =>
           tree a' = tree a /\ config_file a' = Torn /\ restart a' = None
       end
    /\ watch_folder a' = watch_folder a
    /\ observer a' = observer a.
Proof.
  intros Htag Hpath. exists (add_tag writing a).1.
  assert (normal_key (entered_tag a)) as Hkey.
  { apply entered_key_normal. rewrite lower_empty.
    now apply strip_not_blank. }
  assert (normal_path (entered_path a)) as Hdest.
  { apply entered_path_normal. now apply strip_not_blank. }
  pose proof (dict_get_set (sorting_rules a) (entered_tag a) (entered_path a))
    as Hget.
  pose proof (dict_set_keys (sorting_rules a) (entered_tag a) (entered_path a))
    as Hkeys.
  rewrite add_tag_entered by assumption.
  destruct writing; cbn [fst snd];
    (split; [reflexivity|]); (split; [exact Hkey|]); (split; [exact Hdest|]);
    (split; [cbn; rewrite Hget; now rewrite decide_True|]);
    (split; [intros k Hk; cbn; rewrite Hget; now rewrite decide_False|]);
    (split; [exact Hkeys|]); repeat split.
Qed.

Lemma add_tag_sets_rule_witness :
  exists a',
    add_tag WriteFails
      (with_path_entry " /dest/invoices "
         (with_tag_entry " [Invoice]" (init None)))
    = (a', Some OSError)
    /\ Dict.get (sorting_rules a') "[invoice]" = Some "/dest/invoices"
    /\ tree a' = []
    /\ config_file a' = Torn.
Proof.
  destruct (add_tag_sets_rule WriteFails
              (with_path_entry " /dest/invoices "
                 (with_tag_entry " [Invoice]" (init None))))
    as (a' & Hrun & _ & _ & Hget & _ & _ & (Htree & Hfile & _) & _);
    [reflexivity | reflexivity |].
  exists a'. split; [exact Hrun|]. split; [exact Hget|].
  split; [exact Htree | exact Hfile].
Defined.

(** [add_tag] when one of the entries holds white space only. *)
Lemma add_tag_skip (writing : write_outcome) a :
  blank (tag_entry a) = true \/ blank (path_entry a) = true ->
  add_tag writing a = (a, None).
Proof.
  intros Hblank. unfold add_tag. cbv zeta.
  change (Str.lower (Text.strip (tag_entry a))) with (entered_tag a).
  change (Text.strip (path_entry a)) with (entered_path a).
  rewrite entered_truthy.
  destruct Hblank as [-> | ->]; [reflexivity|].
  now rewrite andb_false_r.
Qed.

(** X12.  [add_tag] with nothing but white space in the tag entry or in
    the path entry does nothing: no rule, no write of the settings file,
    no exception; the state is the one before the call. *)
Theorem add_tag_blank (writing : write_outcome) a :
  blank (tag_entry a) = true \/ blank (path_entry a) = true ->
  add_tag writing a = (a, None).
Proof. apply add_tag_skip. Qed.

Lemma add_tag_blank_witness :
  add_tag Written (with_tag_entry "[a]" (with_path_entry "  " (init None)))
  = (with_tag_entry "[a]" (with_path_entry "  " (init None)), None).
Proof. apply add_tag_blank. right. reflexivity. Defined.

End editor.

Section removal.

Import AutoSorterApp.

Implicit Types (a : app) (d : Dict.dict) (k v tag : string).

Lemma dict_del_set_new d k v : k ∉ d.*1 -> Dict.del (Dict.set d k v) k = Some d.
Proof.
  induction d as [|[k0 v0] d IH]; intros Hk.
  - cbn [Dict.set Dict.del]. now rewrite String.eqb_refl.
  - rewrite fmap_cons, not_elem_of_cons in Hk. destruct Hk as [Hne Hk].
    cbn [fst] in Hne. cbn [Dict.set].
    destruct (String.eqb_spec k0 k); [congruence|].
    cbn [Dict.del]. destruct (String.eqb_spec k0 k); [congruence|].
    now rewrite IH.
Qed.

(** [remove_tag] for a tag that is a key. *)
Lemma remove_tag_key tag d writing a :
  Dict.del (sorting_rules a) tag = Some d ->
  remove_tag (Some tag) writing a
  = match writing with
    | Written =>
        (refresh_table
           (with_config_file (Loadable (Some (saved (with_sorting_rules d a))))
              (with_sorting_rules d a)),
         None)
    | OpenRefused => (with_sorting_rules d a, Some OSError)
    | WriteFails =>
        (with_config_file Torn (with_sorting_rules d a), Some OSError)
    end.
Proof.
  intros Hdel. unfold remove_tag. rewrite Hdel. unfold save_settings.
  now destruct writing.
Qed.

(** X13.  [remove_tag] with a row selected.  When the tag that the table
    reports is not a key of the rules the call raises [KeyError] and
    nothing has changed.  When it is a key, the key is gone, every other
    key has the folder it had and the rules that stay keep their order.
    Then, when the settings file is written, the call returns and the
    file and the table follow; when the file cannot be opened the call
    raises with the rule already deleted, the table and the file as they
    were; when the file is opened and the writing fails the call raises
    with the rule deleted and the table as it was, and the file is left
    cut short: the application cannot be started on it. *)
Theorem remove_tag_effect tag (writing : write_outcome) a :
  NoDup (sorting_rules a).*1 ->
  (tag ∉ (sorting_rules a).*1 ->
   remove_tag (Some tag) writing a = (a, Some (KeyError tag)))
  /\ (tag ∈ (sorting_rules a).*1 ->
      exists a',
        remove_tag (Some tag) writing a
        = (a', match writing with Written => None | _ => Some OSError end)
        /\ Dict.get (sorting_rules a') tag = None
        /\ (forall k,
              k <> tag ->
              Dict.get (sorting_rules a') k = Dict.get (sorting_rules a) k)
        /\ sorting_rules a' `sublist_of` sorting_rules a
        /\ NoDup (sorting_rules a').*1
        /\ match writing with
           | Written =>
               tree a' = sorting_rules a'
               /\ config_file a' = Loadable (Some (saved a'))
           | OpenRefused =>
               tree a' = tree a /\ config_file a' = config_file a
           | WriteFails =>
               tree a' = tree a /\ config_file a' = Torn
               /\ restart a' = None
           end
        /\ watch_folder a' = watch_folder a
        /\ observer a' = observer a).
Proof.
  intros Hnd. split.
  - intros Hk. apply dict_get_None, dict_del_None in Hk.
    unfold remove_tag. now rewrite Hk.
  - intros Hk.
    destruct (Dict.del (sorting_rules a) tag) as [d|] eqn:Hdel.
    + destruct (dict_del_Some _ _ _ Hnd Hdel) as (_ & Hgone & Hrest & Hnd').
      pose proof (dict_del_sublist _ _ _ Hdel) as Hsub.
      exists (remove_tag (Some tag) writing a).1.
      rewrite (remove_tag_key _ _ _ _ Hdel).
      destruct writing; cbn [fst snd]; repeat split; assumption.
    + apply dict_del_None, dict_get_None in Hdel. contradiction.
Qed.

Lemma remove_tag_effect_witness :
  remove_tag (Some "[b]") Written
    (run [EditTag "[a]"; EditPath "/dest"; Add Written] (init None))
  = (run [EditTag "[a]"; EditPath "/dest"; Add Written] (init None),
     Some (KeyError "[b]"))
  /\ exists a',
       remove_tag (Some "[a]") WriteFails
         (run [EditTag "[a]"; EditPath "/dest"; Add Written] (init None))
       = (a', Some OSError)
       /\ sorting_rules a' = []
       /\ tree a' = [("[a]", "/dest")]
       /\ config_file a' = Torn.
Proof.
  split.
  - apply (remove_tag_effect "[b]" Written
             (run [EditTag "[a]"; EditPath "/dest"; Add Written] (init None))).
    + change (NoDup ["[a]"]). apply NoDup_singleton.
    + change ("[b]" ∉ ["[a]"]). rewrite list_elem_of_singleton. discriminate.
  - destruct (remove_tag_effect "[a]" WriteFails
                (run [EditTag "[a]"; EditPath "/dest"; Add Written]
                   (init None))) as (_ & Hkey).
    + change (NoDup ["[a]"]). apply NoDup_singleton.
    + destruct Hkey as (a' & Hrun & _ & _ & _ & _ & (Htree & Hfile & _) & _).
      * change ("[a]" ∈ ["[a]"]). apply list_elem_of_here.
      * exists a'. split; [exact Hrun|].
        apply (f_equal fst) in Hrun. cbn [fst] in Hrun. subst a'.
        split; [vm_compute; reflexivity|].
        split; [exact Htree | exact Hfile].
Defined.

(** X14.  A rule added under a new tag and then removed leaves the rules
    as they were before the two calls, in content and in order; the
    settings file holds them again.  (Under a tag that was a key the
    folder it had is lost: the key is gone after the removal.) *)
Theorem add_then_remove a :
  NoDup (sorting_rules a).*1 ->
  blank (tag_entry a) = false ->
  blank (path_entry a) = false ->
  (entered_tag a ∉ (sorting_rules a).*1 ->
   sorting_rules
     (remove_tag (Some (entered_tag a)) Written (add_tag Written a).1).1
   = sorting_rules a
   /\ config_file
        (remove_tag (Some (entered_tag a)) Written (add_tag Written a).1).1
      = Loadable (Some (saved a)))
  /\ (entered_tag a ∈ (sorting_rules a).*1 ->
      Dict.get
        (sorting_rules
           (remove_tag (Some (entered_tag a)) Written (add_tag Written a).1).1)
        (entered_tag a)
      = None).
Proof.
  intros Hnd Htag Hpath. rewrite add_tag_entered by assumption. cbn [fst].
  split.
  - intros Hnew.
    rewrite (remove_tag_key _ (sorting_rules a)); [split; reflexivity|].
    cbn. now apply dict_del_set_new.
  - intros Hold.
    destruct (Dict.del (Dict.set (sorting_rules a) (entered_tag a)
                          (entered_path a)) (entered_tag a)) as [d|] eqn:Hdel.
    + rewrite (remove_tag_key _ d) by exact Hdel. cbn.
      eapply dict_del_Some; [|exact Hdel]. now apply dict_set_NoDup.
    + apply dict_del_None in Hdel. rewrite dict_get_set in Hdel.
      now rewrite decide_True in Hdel.
Qed.

Lemma add_then_remove_witness :
  sorting_rules
    (remove_tag (Some "[b]") Written
       (add_tag Written
          (run [EditTag "[a]"; EditPath "/a"; Add Written;
                EditTag " [B] "; EditPath "/b"] (init None))).1).1
  = [("[a]", "/a")].
Proof.
  apply (add_then_remove
           (run [EditTag "[a]"; EditPath "/a"; Add Written;
                 EditTag " [B] "; EditPath "/b"] (init None))).
  - change (NoDup ["[a]"]). apply NoDup_singleton.
  - reflexivity.
  - reflexivity.
  - change ("[b]" ∉ ["[a]"]). rewrite list_elem_of_singleton. discriminate.
Defined.

End removal.

(** ** The window over a session *)

Section session.

Import AutoSorterApp.

Implicit Types (a b : app) (x : action) (xs : list action)
  (file : option settings).

Lemma run_cons x xs a : run (x :: xs) a = run xs (step x a).1.
Proof. reflexivity. Qed.

Lemma run_app xs ys a : run (xs ++ ys)%list a = run ys (run xs a).
Proof. unfold run. apply foldl_app. Qed.

(** A property that the permitted actions keep holds after any run of
    them. *)
Lemma run_invariant (ok : action -> bool) (P : app -> Prop) :
  (forall x a, ok x = true -> P a -> P (step x a).1) ->
  forall xs a, forallb ok xs = true -> P a -> P (run xs a).
Proof.
  intros Hstep xs. induction xs as [|x xs IH]; intros a Hok Ha; [exact Ha|].
  cbn [forallb] in Hok. apply andb_true_iff in Hok as [Hx Hxs].
  rewrite run_cons. apply IH; [exact Hxs|]. now apply Hstep.
Qed.

Lemma forallb_always xs : forallb (fun _ : action => true) xs = true.
Proof. now induction xs. Qed.

Lemma not_monitoring_stopped a : observer a = None -> ~ monitoring a.
Proof. intros Hnone [folder Hsome]. congruence. Qed.

Lemma step_consistent x a : consistent a -> consistent (step x a).1.
Proof.
  intros Hc. pose proof Hc as (Hnd & Hbtn & Hpath & Hdes). unfold step.
  destruct (destroyed a) eqn:Hd; [exact Hc|].
  destruct x as [text|text|text|folder|folder writing|writing
                 |selected writing|start_ok|]; cbn [fst].
  - exact Hc.
  - exact Hc.
  - exact Hc.
  - unfold choose_folder. destruct (Text.truthy folder); exact Hc.
  - unfold choose_watch_folder, save_settings.
    destruct (Text.truthy folder); [destruct writing|]; exact Hc.
  - unfold add_tag, save_settings. cbv zeta.
    destruct (_ && _); [|exact Hc].
    destruct writing; (split; [now apply dict_set_NoDup | exact (proj2 Hc)]).
  - unfold remove_tag, save_settings.
    destruct selected as [tag|]; [|exact Hc].
    destruct (Dict.del (sorting_rules a) tag) as [d|] eqn:Hdel;
      [|exact Hc].
    destruct (dict_del_Some _ _ _ Hnd Hdel) as (_ & _ & _ & Hnd').
    destruct writing; (split; [exact Hnd' | exact (proj2 Hc)]).
  - unfold toggle_monitoring, stop_monitoring, start_monitoring.
    destruct (observer a) as [o|] eqn:Ho.
    + destruct (obs_started o) eqn:Hs; [|exact Hc].
      split; [exact Hnd|]. split; [|split; [discriminate | reflexivity]].
      split; [discriminate | intros [folder Hm]; discriminate Hm].
    + destruct (Text.truthy (watch_folder a)) eqn:Hw; cbn [negb].
      * apply truthy_true in Hw. destruct start_ok.
        -- split; [exact Hnd|]. split; [|split].
           ++ split; [intros _; now eexists | reflexivity].
           ++ intros o [= <-]. exact Hw.
           ++ cbn. congruence.
        -- split; [exact Hnd|]. split; [|split].
           ++ cbn. rewrite Hbtn. split; intros [folder Hm]; [congruence|].
              discriminate Hm.
           ++ intros o [= <-]. exact Hw.
           ++ cbn. congruence.
      * split; [exact Hnd|]. split; [|split]; cbn.
        -- rewrite Hbtn. unfold monitoring. cbn. reflexivity.
        -- rewrite Ho. discriminate.
        -- congruence.
  - unfold on_closing, stop_monitoring.
    destruct (observer a) as [o|] eqn:Ho.
    + destruct (obs_started o) eqn:Hs; [|exact Hc].
      split; [exact Hnd|]. split; [|split; [discriminate | reflexivity]].
      split; [discriminate | intros [folder Hm]; discriminate Hm].
    + split; [exact Hnd|]. split; [|split]; cbn.
      * rewrite Hbtn. unfold monitoring. cbn. reflexivity.
      * rewrite Ho. discriminate.
      * intros _. exact Ho.
Qed.

Lemma init_consistent file : consistent (init file).
Proof.
  split; [|split; [|split]].
  - unfold init, load_settings. cbn.
    destruct file as [[[members|] ?]|]; cbn;
      [apply dict_load_NoDup | apply NoDup_nil_2 | apply NoDup_nil_2].
  - split; [discriminate | intros [folder Hm]; discriminate Hm].
  - discriminate.
  - discriminate.
Qed.

(** X15.  Whatever the settings file holds and whatever the user does
    with the window: the keys of the rules are pairwise different; the
    button reads [Stop Monitoring] exactly when an observer is running;
    an observer was never scheduled on the empty path; and a window that
    was destroyed has no observer left. *)
Theorem session_consistent file xs : consistent (run xs (init file)).
Proof.
  apply (run_invariant (fun _ => true) consistent).
  - intros x a _. apply step_consistent.
  - apply forallb_always.
  - apply init_consistent.
Qed.

End session.

Section session_rules.

Import AutoSorterApp.

Implicit Types (a b : app) (x : action) (xs : list action)
  (file : option settings) (d : Dict.dict).

Lemma dict_set_Forall (P : string * string -> Prop) d k v :
  Forall P d -> P (k, v) -> Forall P (Dict.set d k v).
Proof.
  intros Hd Hkv. induction Hd as [|[k0 v0] d H0 Hd IH]; cbn [Dict.set].
  - now apply Forall_singleton.
  - destruct (String.eqb_spec k0 k) as [->|_]; now apply Forall_cons.
Qed.

Lemma dict_load_Forall (P : string * string -> Prop) members :
  Forall P members -> Forall P (Dict.load members).
Proof.
  unfold Dict.load.
  assert (forall d, Forall P d -> Forall P members ->
            Forall P (foldl (fun d m => Dict.set d m.1 m.2) d members)) as H.
  { induction members as [|[k v] members IH]; intros d Hd Hm; [exact Hd|].
    apply Forall_cons in Hm as [Hkv Hm]. cbn [foldl]. apply IH; [|exact Hm].
    now apply dict_set_Forall. }
  apply H. apply Forall_nil_2.
Qed.

Lemma step_normal x a :
  Forall normal_rule (sorting_rules a) ->
  Forall normal_rule (sorting_rules (step x a).1).
Proof.
  intros Hn. unfold step. destruct (destroyed a); [exact Hn|].
  destruct x as [text|text|text|folder|folder writing|writing
                 |selected writing|start_ok|]; cbn [fst]; try exact Hn.
  - unfold choose_folder. now destruct (Text.truthy folder).
  - unfold choose_watch_folder, save_settings.
    destruct (Text.truthy folder); [destruct writing|]; exact Hn.
  - destruct (blank (tag_entry a)) eqn:Htag;
      [rewrite add_tag_skip by (now left); exact Hn|].
    destruct (blank (path_entry a)) eqn:Hpath;
      [rewrite add_tag_skip by (now right); exact Hn|].
    rewrite add_tag_rules by assumption.
    apply dict_set_Forall; [exact Hn|]. split.
    + apply entered_key_normal. rewrite lower_empty.
      now apply strip_not_blank.
    + apply entered_path_normal. now apply strip_not_blank.
  - unfold remove_tag, save_settings.
    destruct selected as [tag|]; [|exact Hn].
    destruct (Dict.del (sorting_rules a) tag) as [d|] eqn:Hdel; [|exact Hn].
    apply dict_del_sublist in Hdel.
    assert (Forall normal_rule d) as Hd
      by (rewrite Forall_forall in *; intros m Hm;
          apply Hn; now apply (elem_of_sublist d)).
    now destruct writing.
  - unfold toggle_monitoring, stop_monitoring, start_monitoring.
    destruct (observer a) as [o|]; [now destruct (obs_started o)|].
    destruct (negb _); [exact Hn | now destruct start_ok].
  - unfold on_closing, stop_monitoring.
    destruct (observer a) as [o|]; [now destruct (obs_started o) | exact Hn].
Qed.

(** X16.  When every rule of the settings file has a key in lower case
    with no white space at either end and a folder with none either,
    neither empty, so has every rule at any later time: the window adds
    no rule of another kind.  With no settings file this is so from the
    start. *)
Theorem rules_stay_normal file xs :
  (forall s members,
      file = Some s -> sorting_rules_member s = Some members ->
      Forall normal_rule members) ->
  Forall normal_rule (sorting_rules (run xs (init file))).
Proof.
  intros Hfile.
  apply (run_invariant (fun _ => true)
           (fun a => Forall normal_rule (sorting_rules a))).
  - intros x a _. apply step_normal.
  - apply forallb_always.
  - destruct file as [[[members|] folder]|]; cbn.
    + apply dict_load_Forall. now apply (Hfile _ members eq_refl).
    + apply Forall_nil_2.
    + apply Forall_nil_2.
Qed.

Lemma rules_stay_normal_witness :
  Forall normal_rule
    (sorting_rules
       (run [EditTag " [Invoice] "; EditPath "/dest "; Add OpenRefused] (init None))).
Proof. apply rules_stay_normal. intros s members Hfile. discriminate Hfile. Defined.

Lemma step_persist x a :
  saves x = true ->
  NoDup (sorting_rules a).*1
  /\ (exists file,
        config_file a = Loadable file
        /\ sorting_rules (init file) = sorting_rules a)
  /\ tree a = sorting_rules a ->
  NoDup (sorting_rules (step x a).1).*1
  /\ (exists file,
        config_file (step x a).1 = Loadable file
        /\ sorting_rules (init file) = sorting_rules (step x a).1)
  /\ tree (step x a).1 = sorting_rules (step x a).1.
Proof.
  intros Hx Ha. pose proof Ha as (Hnd & Hfile & Htree). unfold step.
  destruct (destroyed a); [exact Ha|].
  destruct x as [text|text|text|folder|folder writing|writing
                 |selected writing|start_ok|]; cbn [fst saves] in *;
    try exact Ha.
  - unfold choose_folder. now destruct (Text.truthy folder).
  - destruct writing; try discriminate Hx.
    unfold choose_watch_folder, save_settings.
    destruct (Text.truthy folder); [|exact Ha].
    split; [exact Hnd|]. split; [|exact Htree].
    eexists. split; [reflexivity|]. cbn. now rewrite dict_load_id.
  - destruct writing; try discriminate Hx.
    destruct (blank (tag_entry a)) eqn:Htag;
      [rewrite add_tag_skip by (now left); exact Ha|].
    destruct (blank (path_entry a)) eqn:Hpath;
      [rewrite add_tag_skip by (now right); exact Ha|].
    rewrite add_tag_entered by assumption. cbn [fst].
    pose proof (dict_set_NoDup _ (entered_tag a) (entered_path a) Hnd) as Hnd'.
    split; [exact Hnd'|]. split; [|reflexivity].
    eexists. split; [reflexivity|]. cbn. now rewrite dict_load_id.
  - destruct writing; try discriminate Hx.
    unfold remove_tag.
    destruct selected as [tag|]; [|exact Ha].
    destruct (Dict.del (sorting_rules a) tag) as [d|] eqn:Hdel; [|exact Ha].
    destruct (dict_del_Some _ _ _ Hnd Hdel) as (_ & _ & _ & Hnd').
    cbn. split; [exact Hnd'|]. split; [|reflexivity].
    eexists. split; [reflexivity|]. cbn. now rewrite dict_load_id.
  - unfold toggle_monitoring, stop_monitoring, start_monitoring.
    destruct (observer a) as [o|]; [now destruct (obs_started o)|].
    destruct (negb _); [exact Ha | now destruct start_ok].
  - unfold on_closing, stop_monitoring.
    destruct (observer a) as [o|]; [now destruct (obs_started o) | exact Ha].
Qed.

Lemma step_persist_folder x a :
  saves x = true -> types_folder x = false ->
  (exists file,
     config_file a = Loadable file
     /\ watch_folder (init file) = watch_folder a) ->
  exists file,
    config_file (step x a).1 = Loadable file
    /\ watch_folder (init file) = watch_folder (step x a).1.
Proof.
  intros Hx Ht Ha. unfold step.
  destruct (destroyed a); [exact Ha|].
  destruct x as [text|text|text|folder|folder writing|writing
                 |selected writing|start_ok|]; cbn [fst saves types_folder] in *;
    try exact Ha; try discriminate Ht.
  - unfold choose_folder. now destruct (Text.truthy folder).
  - destruct writing; try discriminate Hx.
    unfold choose_watch_folder, save_settings.
    destruct (Text.truthy folder); [|exact Ha].
    eexists. split; reflexivity.
  - destruct writing; try discriminate Hx.
    unfold add_tag, save_settings. cbv zeta.
    destruct (_ && _); [|exact Ha]. eexists. split; reflexivity.
  - destruct writing; try discriminate Hx.
    unfold remove_tag, save_settings.
    destruct selected as [tag|]; [|exact Ha].
    destruct (Dict.del (sorting_rules a) tag); [|exact Ha].
    eexists. split; reflexivity.
  - unfold toggle_monitoring, stop_monitoring, start_monitoring.
    destruct (observer a) as [o|]; [now destruct (obs_started o)|].
    destruct (negb _); [exact Ha | now destruct start_ok].
  - unfold on_closing, stop_monitoring.
    destruct (observer a) as [o|]; [now destruct (obs_started o) | exact Ha].
Qed.

(** X17.  As long as every write of the settings file succeeds, the
    file and the table keep up with the rules: the table shows the rules
    as they are, and the application can be started again on the file as
    it is and then has the same rules, in the same order.  It has the
    same watch folder too when the folder was chosen by the dialog only,
    never typed into its entry: typing does not write the file. *)
Theorem settings_persist file xs :
  forallb saves xs = true ->
  tree (run xs (init file)) = sorting_rules (run xs (init file))
  /\ exists b,
       restart (run xs (init file)) = Some b
       /\ sorting_rules b = sorting_rules (run xs (init file))
       /\ (forallb (fun x => negb (types_folder x)) xs = true ->
           watch_folder b = watch_folder (run xs (init file))).
Proof.
  intros Hsaves.
  assert (NoDup (sorting_rules (run xs (init file))).*1
          /\ (exists file',
                config_file (run xs (init file)) = Loadable file'
                /\ sorting_rules (init file')
                   = sorting_rules (run xs (init file)))
          /\ tree (run xs (init file)) = sorting_rules (run xs (init file)))
    as (_ & (file' & Hfile & Hrules) & Htree).
  { apply (run_invariant saves
             (fun a => NoDup (sorting_rules a).*1
                       /\ (exists file',
                             config_file a = Loadable file'
                             /\ sorting_rules (init file') = sorting_rules a)
                       /\ tree a = sorting_rules a)).
    - apply step_persist.
    - exact Hsaves.
    - split; [apply init_consistent|].
      split; [exists file; split; reflexivity | reflexivity]. }
  split; [exact Htree|].
  exists (init file'). unfold restart. rewrite Hfile.
  split; [reflexivity|]. split; [exact Hrules|].
  intros Htyped.
  assert (exists file'',
            config_file (run xs (init file)) = Loadable file''
            /\ watch_folder (init file'') = watch_folder (run xs (init file)))
    as (file'' & Hfile' & Hfolder).
  { apply (run_invariant (fun x => saves x && negb (types_folder x))
             (fun a => exists file'',
                         config_file a = Loadable file''
                         /\ watch_folder (init file'') = watch_folder a)).
    - intros x a Hx. apply andb_true_iff in Hx as [Hs Ht].
      apply negb_true_iff in Ht. now apply step_persist_folder.
    - clear -Hsaves Htyped. induction xs as [|x xs IH]; [reflexivity|].
      cbn [forallb] in *. apply andb_true_iff in Hsaves as [-> Hs].
      apply andb_true_iff in Htyped as [-> Ht]. now apply IH.
    - exists file. split; reflexivity. }
  congruence.
Qed.

Lemma settings_persist_witness :
  exists b,
    restart
      (run [EditTag "[b]"; EditPath "/b"; Add Written;
            EditTag "[a]"; EditPath "/a"; Add Written;
            Remove (Some "[b]") Written] (init None)) = Some b
    /\ sorting_rules b = [("[a]", "/a")].
Proof.
  destruct (settings_persist None
              [EditTag "[b]"; EditPath "/b"; Add Written;
               EditTag "[a]"; EditPath "/a"; Add Written;
               Remove (Some "[b]") Written]) as (_ & b & Hb & Hrules & _);
    [reflexivity|].
  exists b. split; [exact Hb|]. rewrite Hrules. vm_compute. reflexivity.
Defined.

End session_rules.

(** ** Monitoring *)

Section monitoring_facts.

Import AutoSorterApp.

Implicit Types (a b : app) (x : action) (xs : list action) (o : Observer).

Lemma start_monitoring_started a :
  watch_folder a <> "" ->
  start_monitoring true a
  = (with_start_button "Stop Monitoring"
       (with_observer
          (Some {| obs_path := watch_folder a; obs_started := true |}) a),
     None).
Proof.
  intros Hw. unfold start_monitoring.
  apply truthy_true in Hw. rewrite Hw. reflexivity.
Qed.

(** X18.  The button, with no observer at hand.  With an empty watch
    folder it shows the warning and starts nothing.  With a watch folder
    and an observer that starts, the observer runs on that folder and
    the button reads [Stop Monitoring]; the button pressed again stops
    it, and the application is as it was before the two presses but for
    the text of the button, which reads [Start Monitoring]. *)
Theorem toggle_monitoring_cycle (start_ok : bool) a :
  observer a = None ->
  (watch_folder a = "" ->
   toggle_monitoring start_ok a
   = (with_warnings
        (warnings a ++ [("Error", "Please select a watch folder!")])%list a,
      None))
  /\ (watch_folder a <> "" ->
      observer (toggle_monitoring true a).1
      = Some {| obs_path := watch_folder a; obs_started := true |}
      /\ start_button (toggle_monitoring true a).1 = "Stop Monitoring"
      /\ toggle_monitoring start_ok (toggle_monitoring true a).1
         = (with_start_button "Start Monitoring" a, None)).
Proof.
  intros Hnone. split.
  - intros Hw. unfold toggle_monitoring, start_monitoring.
    rewrite Hnone, Hw. reflexivity.
  - intros Hw. unfold toggle_monitoring at 1 2 4. rewrite Hnone.
    rewrite start_monitoring_started by exact Hw. cbn [fst].
    split; [reflexivity|]. split; [reflexivity|].
    unfold toggle_monitoring, stop_monitoring. cbn.
    destruct a. cbn in *. now subst.
Qed.

Lemma toggle_monitoring_cycle_witness :
  toggle_monitoring false
    (toggle_monitoring true (with_watch_folder "/watch" (init None))).1
  = (with_watch_folder "/watch" (init None), None).
Proof.
  apply (toggle_monitoring_cycle false (with_watch_folder "/watch" (init None)));
    [reflexivity | discriminate].
Defined.

Lemma step_wedged x a folder :
  observer a = Some {| obs_path := folder; obs_started := false |} ->
  destroyed a = false ->
  observer (step x a).1 = observer a
  /\ start_button (step x a).1 = start_button a
  /\ destroyed (step x a).1 = false.
Proof.
  intros Ho Hd. unfold step. rewrite Hd.
  destruct x as [text|text|text|dir|dir writing|writing
                 |selected writing|start_ok|]; cbn [fst];
    try (repeat split; (reflexivity || exact Hd)).
  - unfold choose_folder. destruct (Text.truthy dir); now repeat split.
  - unfold choose_watch_folder, save_settings.
    destruct (Text.truthy dir); [destruct writing|]; now repeat split.
  - unfold add_tag, save_settings. cbv zeta.
    destruct (_ && _); [destruct writing|]; now repeat split.
  - unfold remove_tag, save_settings.
    destruct selected as [tag|]; [|now repeat split].
    destruct (Dict.del (sorting_rules a) tag); [destruct writing|];
      now repeat split.
  - unfold toggle_monitoring, stop_monitoring. rewrite Ho. now repeat split.
  - unfold on_closing, stop_monitoring. rewrite Ho. now repeat split.
Qed.

(** X19.  An observer that fails to start is left on the application,
    assigned and not running, and there it stays: after that failure,
    whatever the user does, the button still reads what it read, every
    press of it and every attempt to close the window raises
    [RuntimeError] from [join] and changes nothing, so that monitoring
    never starts again and the window is never destroyed. *)
Theorem failed_start_stays a xs :
  destroyed a = false ->
  observer a = None ->
  watch_folder a <> "" ->
  step (Toggle false) a
  = (with_observer
       (Some {| obs_path := watch_folder a; obs_started := false |}) a,
     Some OSError)
  /\ observer (run xs (step (Toggle false) a).1)
     = Some {| obs_path := watch_folder a; obs_started := false |}
  /\ start_button (run xs (step (Toggle false) a).1) = start_button a
  /\ destroyed (run xs (step (Toggle false) a).1) = false
  /\ (forall start_ok,
        step (Toggle start_ok) (run xs (step (Toggle false) a).1)
        = (run xs (step (Toggle false) a).1, Some RuntimeError))
  /\ step Close (run xs (step (Toggle false) a).1)
     = (run xs (step (Toggle false) a).1, Some RuntimeError).
Proof.
  intros Hd Hnone Hw.
  assert (step (Toggle false) a
          = (with_observer
               (Some {| obs_path := watch_folder a; obs_started := false |}) a,
             Some OSError)) as Hfail.
  { unfold step, toggle_monitoring, start_monitoring. rewrite Hd, Hnone.
    apply truthy_true in Hw. rewrite Hw. reflexivity. }
  split; [exact Hfail|]. rewrite Hfail. cbn [fst].
  assert (observer
            (run xs (with_observer
               (Some {| obs_path := watch_folder a; obs_started := false |}) a))
          = Some {| obs_path := watch_folder a; obs_started := false |}
          /\ start_button
               (run xs (with_observer
                  (Some {| obs_path := watch_folder a; obs_started := false |})
                  a))
             = start_button a
          /\ destroyed
               (run xs (with_observer
                  (Some {| obs_path := watch_folder a; obs_started := false |})
                  a))
             = false) as (Ho & Hb & Hd').
  { apply (run_invariant (fun _ => true)
             (fun b => observer b
                       = Some {| obs_path := watch_folder a;
                                 obs_started := false |}
                       /\ start_button b = start_button a
                       /\ destroyed b = false)).
    - intros x b _ (Ho & Hb & Hdb).
      destruct (step_wedged x b _ Ho Hdb) as (Ho' & Hb' & Hd').
      split; [congruence|]. split; [congruence | exact Hd'].
    - apply forallb_always.
    - now repeat split. }
  split; [exact Ho|]. split; [exact Hb|]. split; [exact Hd'|]. split.
  - intros start_ok. unfold step, toggle_monitoring, stop_monitoring.
    now rewrite Hd', Ho.
  - unfold step, on_closing, stop_monitoring. now rewrite Hd', Ho.
Qed.

Lemma failed_start_stays_witness :
  step Close
    (run [Toggle true; BrowseWatchFolder "/other" Written]
       (step (Toggle false) (with_watch_folder "/watch" (init None))).1)
  = (run [Toggle true; BrowseWatchFolder "/other" Written]
       (step (Toggle false) (with_watch_folder "/watch" (init None))).1,
     Some RuntimeError).
Proof.
  apply (failed_start_stays (with_watch_folder "/watch" (init None))
           [Toggle true; BrowseWatchFolder "/other" Written]);
    [reflexivity | reflexivity | discriminate].
Defined.

Lemma step_leaves_observer x a :
  leaves_observer x = true ->
  observer (step x a).1 = observer a
  /\ start_button (step x a).1 = start_button a
  /\ destroyed (step x a).1 = destroyed a.
Proof.
  intros Hx. unfold step. destruct (destroyed a) eqn:Hd; [now repeat split|].
  destruct x as [text|text|text|dir|dir writing|writing
                 |selected writing|start_ok|]; cbn [fst leaves_observer] in *;
    try discriminate Hx; try (repeat split; (reflexivity || exact Hd)).
  - unfold choose_folder. destruct (Text.truthy dir); now repeat split.
  - unfold choose_watch_folder, save_settings.
    destruct (Text.truthy dir); [destruct writing|]; now repeat split.
  - unfold add_tag, save_settings. cbv zeta.
    destruct (_ && _); [destruct writing|]; now repeat split.
  - unfold remove_tag, save_settings.
    destruct selected as [tag|]; [|now repeat split].
    destruct (Dict.del (sorting_rules a) tag); [destruct writing|];
      now repeat split.
Qed.

(** X20.  Only the monitoring button and the closing of the window
    touch the observer.  A watch folder chosen or typed while an observer
    runs does not move it: it goes on watching the folder it was
    scheduled on, and the new folder is watched only after monitoring has
    been stopped and started again. *)
Theorem observer_keeps_its_folder a xs :
  forallb leaves_observer xs = true ->
  observer (run xs a) = observer a
  /\ start_button (run xs a) = start_button a
  /\ (forall folder start_ok,
        destroyed a = false ->
        observer a = Some {| obs_path := folder; obs_started := true |} ->
        watch_folder (run xs a) <> "" ->
        observer (run (xs ++ [Toggle start_ok; Toggle true])%list a)
        = Some {| obs_path := watch_folder (run xs a); obs_started := true |}).
Proof.
  intros Hxs.
  assert (observer (run xs a) = observer a
          /\ start_button (run xs a) = start_button a
          /\ destroyed (run xs a) = destroyed a) as (Ho & Hb & Hd).
  { apply (run_invariant leaves_observer
             (fun b => observer b = observer a
                       /\ start_button b = start_button a
                       /\ destroyed b = destroyed a)).
    - intros x b Hx (Ho & Hb & Hd).
      destruct (step_leaves_observer x b Hx) as (Ho' & Hb' & Hd').
      repeat split; congruence.
    - exact Hxs.
    - now repeat split. }
  split; [exact Ho|]. split; [exact Hb|].
  intros folder start_ok Hlive Hruns Hw. rewrite run_app.
  rewrite Hruns in Ho. rewrite Hlive in Hd.
  change (run [Toggle start_ok; Toggle true] (run xs a))
    with (step (Toggle true) (step (Toggle start_ok) (run xs a)).1).1.
  assert (step (Toggle start_ok) (run xs a)
          = (with_start_button "Start Monitoring"
               (with_observer None (run xs a)), None)) as ->.
  { unfold step, toggle_monitoring, stop_monitoring. now rewrite Hd, Ho. }
  cbn [fst]. unfold step. cbn [destroyed with_start_button with_observer].
  rewrite Hd. unfold toggle_monitoring.
  cbn [observer with_start_button with_observer].
  rewrite start_monitoring_started by exact Hw. reflexivity.
Qed.

Lemma observer_keeps_its_folder_witness :
  observer
    (run [BrowseWatchFolder "/other" Written; EditTag "[a]"]
       (run [EditWatchFolder "/watch"; Toggle true] (init None)))
  = Some {| obs_path := "/watch"; obs_started := true |}.
Proof.
  destruct (observer_keeps_its_folder
              (run [EditWatchFolder "/watch"; Toggle true] (init None))
              [BrowseWatchFolder "/other" Written; EditTag "[a]"])
    as (Hsame & _); [reflexivity|].
  rewrite Hsame. vm_compute. reflexivity.
Defined.

End monitoring_facts.

(** ** The rules that the handler reads *)

Section live_rules.

Import AutoSorterApp.

Variables (w : nat -> poll) (fault : move_fault)
  (during_delay : filesystem -> filesystem) (fs : filesystem) (ev : event).

Implicit Types (a : app) (tag : string).

(** [on_created] for a tag with no rule. *)
Lemma on_created_no_rule (rules : gmap string string) tag :
  extract_tag (OsPath.basename (src_path ev)) = Some tag ->
  rules !! tag = None ->
  fs_after (on_created rules w fault during_delay fs ev) = fs.
Proof.
  intros Htag Hnone. unfold on_created.
  destruct (is_directory ev); [reflexivity|]. cbv zeta.
  destruct (verdict _) as [[|]| | |]; try reflexivity.
  rewrite Htag, Hnone. now destruct (negb _).
Qed.

(** X21.  A rule is in force as soon as [add_tag] has put it into the
    [dict], which the handler shares: a stable file whose tag is the
    entered tag, stripped and lower-cased, is handed to [move_file] with
    the entered folder, stripped, whether or not the settings file could
    be written, and without monitoring being started again. *)
Theorem added_rule_is_live (writing : write_outcome) a :
  blank (tag_entry a) = false ->
  blank (path_entry a) = false ->
  is_directory ev = false ->
  verdict (wait_for_download w (src_path ev)) = Return true ->
  extract_tag (OsPath.basename (src_path ev)) = Some (entered_tag a) ->
  on_created (handler_rules (add_tag writing a).1) w fault during_delay fs ev
  = {| fs_after :=
         (move_file fault during_delay fs (src_path ev) (entered_path a)).1;
       outcome :=
         (move_file fault during_delay fs (src_path ev) (entered_path a)).2;
       output := [] |}.
Proof.
  intros Htag Hpath Hdir Hstable Hname.
  apply (on_created_ruled _ _ _ _ _ _ (entered_tag a)); try assumption.
  unfold handler_rules. rewrite list_to_map_get, add_tag_rules by assumption.
  rewrite dict_get_set. now rewrite decide_True.
Qed.

(** X22.  A rule is out of force as soon as [remove_tag] has deleted it:
    a file that carries the removed tag is left where it is, whether or
    not the settings file could be written. *)
Theorem removed_rule_is_dead tag (writing : write_outcome) a :
  NoDup (sorting_rules a).*1 ->
  tag ∈ (sorting_rules a).*1 ->
  extract_tag (OsPath.basename (src_path ev)) = Some tag ->
  fs_after
    (on_created (handler_rules (remove_tag (Some tag) writing a).1)
       w fault during_delay fs ev)
  = fs.
Proof.
  intros Hnd Hkey Hname. apply (on_created_no_rule _ tag); [exact Hname|].
  unfold handler_rules. rewrite list_to_map_get.
  destruct (Dict.del (sorting_rules a) tag) as [d|] eqn:Hdel.
  - rewrite (remove_tag_key _ _ _ _ Hdel).
    destruct (dict_del_Some _ _ _ Hnd Hdel) as (_ & Hgone & _).
    now destruct writing.
  - apply dict_del_None, dict_get_None in Hdel. contradiction.
Qed.

End live_rules.

Lemma added_rule_is_live_witness :
  (fs_after
     (on_created
        (AutoSorterApp.handler_rules
           (AutoSorterApp.add_tag AutoSorterApp.OpenRefused
              (AutoSorterApp.with_path_entry " /dest"
                 (AutoSorterApp.with_tag_entry "[A] "
                    (AutoSorterApp.init None)))).1)
        (fun _ => {| p_exists := true; p_getsize := Some 6%N; p_open := Opened |})
        NoFault id one_arrival
        {| is_directory := false; src_path := "/watch/[a] x.bin" |}))
  !! "/dest/[a] x.bin"
  = Some (File "abcdef").
Proof.
  rewrite (added_rule_is_live
             (fun _ => {| p_exists := true; p_getsize := Some 6%N;
                          p_open := Opened |})
             NoFault id one_arrival
             {| is_directory := false; src_path := "/watch/[a] x.bin" |}
             AutoSorterApp.OpenRefused
             (AutoSorterApp.with_path_entry " /dest"
                (AutoSorterApp.with_tag_entry "[A] "
                   (AutoSorterApp.init None))));
    vm_compute; reflexivity.
Defined.

Lemma removed_rule_is_dead_witness :
  fs_after
    (on_created
       (AutoSorterApp.handler_rules
          (AutoSorterApp.remove_tag (Some "[a]") AutoSorterApp.Written
             (AutoSorterApp.run
                [AutoSorterApp.EditTag "[a]"; AutoSorterApp.EditPath "/dest";
                 AutoSorterApp.Add AutoSorterApp.Written] (AutoSorterApp.init None))).1)
       (fun _ => {| p_exists := true; p_getsize := Some 6%N; p_open := Opened |})
       NoFault id one_arrival
       {| is_directory := false; src_path := "/watch/[a] x.bin" |})
  = one_arrival.
Proof.
  apply (removed_rule_is_dead
           (fun _ => {| p_exists := true; p_getsize := Some 6%N;
                        p_open := Opened |})
           NoFault id one_arrival
           {| is_directory := false; src_path := "/watch/[a] x.bin" |}
           "[a]" AutoSorterApp.Written
           (AutoSorterApp.run
              [AutoSorterApp.EditTag "[a]"; AutoSorterApp.EditPath "/dest";
               AutoSorterApp.Add AutoSorterApp.Written] (AutoSorterApp.init None))).
  - change (NoDup ["[a]"]). apply NoDup_singleton.
  - change ("[a]" ∈ ["[a]"]). apply list_elem_of_here.
  - vm_compute. reflexivity.
Defined.
